(** * E-commerce dashboard: the aggregation layer of [dashboard/dashboard.py]

    The script loads an order table ([all_df]), cuts it down to a
    user-chosen date range ([main_df]) and derives a handful of summary
    tables from it.  This file embeds those derivations as functions on
    lists of records and states what they compute.

    Conventions.
    - A pandas [DataFrame] is the list of its rows, in row order.
    - A [datetime64[ns]] cell is [option Z]: nanoseconds since the epoch,
      [None] for [NaT].  A [datetime.date] is a day number (days since the
      epoch).
    - Identifier and label columns are strings; [order_item_id] is the
      integer line number of an item within its order, held in an [int64]
      column whose sums wrap around.
    - The [float64] money columns are read as exact rationals; no
      statement below depends on how sums of them are rounded.
    - [groupby] visits its keys in increasing order and drops nothing
      here, since the key columns are modelled as always present. *)

From stdpp Require Import gmap strings list sorting.
From Stdlib Require Import QArith.

Local Open Scope Z_scope.

(** ** Data model *)

(** One row of [ordered_df.csv], restricted to the columns the derived
    tables read. *)
Record OrderFact := {
  order_id : string;
  order_item_id : Z;
  customer_id : string;
  customer_state : string;
  order_approved_at : option Z;
  price : Q;
  payment_value : Q;
  name_product : string;
}.

(** One row of [geo_result_df.csv]; a missing state is [None] (NaN). *)
Record GeoFact := {
  geolocation_lat : Q;
  geolocation_lng : Q;
  geo_customer_state : option string;
}.

(** ** Time *)

Definition ns_per_day : Z := 86400000000000.

(** [Timestamp.date()], also the bin of [resample(rule='D')]: the calendar
    day a timestamp falls on. *)
Definition date_of (t : Z) : Z := t `div` ns_per_day.

(** [pd.to_datetime(d)] for a [datetime.date]: midnight at the start of
    day [d]. *)
Definition to_datetime (d : Z) : Z := d * ns_per_day.

(** [Timedelta.days]: whole days, rounded towards minus infinity. *)
Definition timedelta_days (delta : Z) : Z := delta `div` ns_per_day.

(** The approval day of a row, when it has an approval timestamp. *)
Definition approved_day (r : OrderFact) : option Z :=
  date_of <$> order_approved_at r.

(** ** Column helpers *)

(** [Series.nunique()]: the number of distinct values. *)
Definition nunique `{EqDecision A} (xs : list A) : nat :=
  length (remove_dups xs).

(** [Series.sum()] on a money column. *)
Definition sum_money (xs : list Q) : Q := foldr Qplus (0%Q) xs.

(** What a 64-bit signed integer holds when the exact result is [z]:
    [z] reduced modulo 2^64 into -2^63 .. 2^63 - 1. *)
Definition int64 (z : Z) : Z :=
  (z + 9223372036854775808) `mod` 18446744073709551616 - 9223372036854775808.

(** The values an [int64] cell can hold. *)
Definition int64_range (z : Z) : Prop :=
  -9223372036854775808 ≤ z < 9223372036854775808.

Global Instance int64_range_dec z : Decision (int64_range z).
Proof. unfold int64_range. apply _. Defined.

(** [Series.sum()] on an [int64] column: every addition wraps around. *)
Definition sum_int (xs : list Z) : Z := foldr (λ x acc, int64 (x + acc)) 0 xs.

(** The exact sum of the same numbers. *)
Definition sum_Z (xs : list Z) : Z := foldr Z.add 0 xs.

(** [Series.max()] on a datetime or date column: [NaT] cells are skipped,
    an all-[NaT] (or empty) column gives [NaT]. *)
Definition max_skipna (xs : list (option Z)) : option Z :=
  foldr (λ o acc,
           match o, acc with
           | Some a, Some b => Some (Z.max a b)
           | Some a, None => Some a
           | None, _ => acc
           end) None xs.

(** [Series.min()], likewise. *)
Definition min_skipna (xs : list (option Z)) : option Z :=
  foldr (λ o acc,
           match o, acc with
           | Some a, Some b => Some (Z.min a b)
           | Some a, None => Some a
           | None, _ => acc
           end) None xs.

(** The order in which [groupby] lists string keys. *)
Definition str_le (a b : string) : Prop := String.leb a b.

Global Instance str_le_dec a b : Decision (str_le a b).
Proof. unfold str_le. apply _. Defined.

(** The keys of [df.groupby(key)]: the distinct values of the key column,
    in increasing order. *)
Definition group_keys {R} (key : R → string) (df : list R) : list string :=
  merge_sort str_le (remove_dups (key <$> df)).

(** The rows of one group. *)
Definition group_rows {R} `{EqDecision K} (key : R → K) (k : K)
    (df : list R) : list R :=
  filter (λ r, key r = k) df.

(** ** Date-range filter (script lines 77-79)

    [all_df[(all_df.order_approved_at >= pd.to_datetime(start_date)) &
            (all_df.order_approved_at <= pd.to_datetime(end_date))]].
    A comparison with [NaT] is false, so unapproved rows are dropped. *)

Definition approved_between (start_date end_date : Z) (r : OrderFact) : Prop :=
  match order_approved_at r with
  | Some t => to_datetime start_date ≤ t ∧ t ≤ to_datetime end_date
  | None => False
  end.

Global Instance approved_between_dec s e r : Decision (approved_between s e r).
Proof. unfold approved_between. destruct (order_approved_at r); apply _. Defined.

Definition main_df (all_df : list OrderFact) (start_date end_date : Z)
    : list OrderFact :=
  filter (approved_between start_date end_date) all_df.

(** ** Daily orders rollup (lines 12-23)

    [df.resample(rule='D', on='order_approved_at')] makes one bin for
    every calendar day from the first to the last approval day of [df],
    whether or not a row falls into it; [nunique] of an empty bin is 0 and
    [sum] of an empty bin is 0. *)

Record DailyOrders := {
  day : Z;
  order_count : nat;
  revenue : Q;
}.

Definition rows_of_day (d : Z) (df : list OrderFact) : list OrderFact :=
  group_rows approved_day (Some d) df.

Definition daily_bin (df : list OrderFact) (d : Z) : DailyOrders :=
  {| day := d;
     order_count := nunique (order_id <$> rows_of_day d df);
     revenue := sum_money (price <$> rows_of_day d df) |}.

Definition create_daily_orders_df (df : list OrderFact) : list DailyOrders :=
  match min_skipna (approved_day <$> df), max_skipna (approved_day <$> df) with
  | Some first_day, Some last_day =>
      daily_bin df <$> seqZ first_day (last_day - first_day + 1)
  | _, _ => []
  end.

(** [daily_orders_df.order_count.sum()], the "Total Orders" metric
    (line 96). *)
Definition total_orders (daily_orders_df : list DailyOrders) : nat :=
  sum_list (order_count <$> daily_orders_df).

(** ** Sorting

    [sort_values] is called with pandas' default [kind='quicksort'], which
    promises an ordered rearrangement of the rows and nothing about rows
    with equal keys.  The derivations below therefore take the sorting
    routine as an argument; [sort_values_spec] is what every [kind]
    guarantees. *)

Definition SortValues (A : Type) : Type := bool → list A → list A.

Record sort_values_spec {A} (key : A → Z) (sort_values : SortValues A) : Prop := {
  sort_values_perm : ∀ ascending l, sort_values ascending l ≡ₚ l;
  sort_values_ascending :
    ∀ l, Sorted (λ a b, key a ≤ key b) (sort_values true l);
  sort_values_descending :
    ∀ l, Sorted (λ a b, key b ≤ key a) (sort_values false l);
}.

(** One such routine: insertion sort, which is what numpy's quicksort runs
    on short arrays.  It keeps rows with equal keys in their input order.
    For a descending sort pandas reverses the rows, sorts ascending and
    reverses the result, so ties keep their input order there too. *)
Fixpoint insert_by {A} (key : A → Z) (x : A) (l : list A) : list A :=
  match l with
  | [] => [x]
  | y :: l' =>
      if decide (key x ≤ key y) then x :: y :: l' else y :: insert_by key x l'
  end.

Fixpoint insertion_sort {A} (key : A → Z) (l : list A) : list A :=
  match l with
  | [] => []
  | x :: l' => insert_by key x (insertion_sort key l')
  end.

Definition stable_sort_values {A} (key : A → Z) : SortValues A :=
  λ ascending l,
    if ascending then insertion_sort key l
    else reverse (insertion_sort key (reverse l)).

(** ** Product quantity ranking (lines 25-29, 123, 131) *)

Record ProductQuantity := {
  product : string;
  quantity : Z;
}.

(** [df.groupby("name_product").order_item_id.sum()] *)
Definition sum_order_item_id (df : list OrderFact) : list ProductQuantity :=
  (λ p, {| product := p;
           quantity := sum_int (order_item_id <$> group_rows name_product p df) |})
    <$> group_keys name_product df.

Definition create_sum_order_items_df (sort_values : SortValues ProductQuantity)
    (df : list OrderFact) : list ProductQuantity :=
  sort_values false (sum_order_item_id df).

(** [sum_order_items_df.head(5)] *)
Definition best_performing (sort_values : SortValues ProductQuantity)
    (df : list OrderFact) : list ProductQuantity :=
  take 5 (create_sum_order_items_df sort_values df).

(** [sum_order_items_df.sort_values(by="quantity", ascending=True).head(5)] *)
Definition worst_performing (sort_values : SortValues ProductQuantity)
    (df : list OrderFact) : list ProductQuantity :=
  take 5 (sort_values true (create_sum_order_items_df sort_values df)).

(** ** Customers by state (lines 31-37) *)

Record ByState := {
  state : string;
  customer_count : nat;
}.

Definition create_bystate_df (df : list OrderFact) : list ByState :=
  (λ s, {| state := s;
           customer_count :=
             nunique (customer_id <$> group_rows customer_state s df) |})
    <$> group_keys customer_state df.

(** ** RFM *)

(** A row of an RFM table.  [recency] is [None] where pandas holds a
    missing value. *)
Record Rfm := {
  rfm_customer_id : string;
  recency : option Z;
  frequency : nat;
  monetary : Q;
}.

(** [create_rfm_df] (lines 39-52): recency is the difference of two
    calendar dates.  The script calls it on [main_df], where every row has
    a stamp, and that is where this definition follows it: on a table
    holding a customer without any stamp lines 48-49 raise [TypeError],
    which is not modelled.  The theorems about [create_rfm_df] are stated
    for tables whose rows all have a stamp. *)
Definition create_rfm_df (df : list OrderFact) : list Rfm :=
  let recent_date := max_skipna (approved_day <$> df) in
  (λ c,
     let rows := group_rows customer_id c df in
     let latest := date_of <$> max_skipna (order_approved_at <$> rows) in
     {| rfm_customer_id := c;
        recency :=
          match recent_date, latest with
          | Some today, Some x => Some (today - x)
          | _, _ => None
          end;
        frequency := nunique (order_id <$> rows);
        monetary := sum_money (payment_value <$> rows) |})
    <$> group_keys customer_id df.

(** The table behind "Best Customer Based on RFM Parameters"
    (lines 576-584): recency is the whole days elapsed between two
    timestamps. *)
Definition rfm_section (all_df : list OrderFact) : list Rfm :=
  let current_date := max_skipna (order_approved_at <$> all_df) in
  (λ c,
     let rows := group_rows customer_id c all_df in
     {| rfm_customer_id := c;
        recency :=
          match current_date, max_skipna (order_approved_at <$> rows) with
          | Some now, Some x => Some (timedelta_days (now - x))
          | _, _ => None
          end;
        frequency := nunique (order_id <$> rows);
        monetary := sum_money (payment_value <$> rows) |})
    <$> group_keys customer_id all_df.

(** The latest approval stamp of customer [c] in [df], the quantity both
    RFM tables measure recency from. *)
Definition latest_stamp (c : string) (df : list OrderFact) : option Z :=
  max_skipna (order_approved_at <$> group_rows customer_id c df).

(** ** The script, as far as the order tables go

    The names are the script's variables.  [rfm_df] is assigned twice:
    at line 85 from [main_df], and again at line 578 from [all_df]; every
    read of it (lines 590-627) comes after the second assignment. *)

Record Dashboard := {
  daily_orders_df : list DailyOrders;
  metric_total_orders : nat;
  best_plot : list ProductQuantity;
  worst_plot : list ProductQuantity;
  bystate_df : list ByState;
  rfm_df_line_85 : list Rfm;
  rfm_df : list Rfm;
}.

Definition dashboard (sort_values : SortValues ProductQuantity)
    (all_df : list OrderFact) (start_date end_date : Z) : Dashboard :=
  let main := main_df all_df start_date end_date in
  let daily := create_daily_orders_df main in
  {| daily_orders_df := daily;
     metric_total_orders := total_orders daily;
     best_plot := best_performing sort_values main;
     worst_plot := worst_performing sort_values main;
     bystate_df := create_bystate_df main;
     rfm_df_line_85 := create_rfm_df main;
     rfm_df := rfm_section all_df |}.

(** ** Geographic bucketing (lines 641-645, 679-681) *)

Definition colors : list string :=
  ["#003f5c"; "#2f4b7c"; "#665191"; "#a05195";
   "#d45087"; "#f95d6a"; "#ff7c43"; "#ffa600"]%string.

(** The position of [s] in the table of values seen so far. *)
Fixpoint index_of (s : string) (uniques : list string) : option nat :=
  match uniques with
  | [] => None
  | u :: rest => if decide (u = s) then Some 0%nat else S <$> index_of s rest
  end.

(** [pd.factorize(column)[0]]: one pass over the column with a growing
    table of the values seen so far; a value not in the table is appended
    and gets the next code, a missing value gets -1. *)
Fixpoint factorize_from (uniques : list string) (column : list (option string))
    : list Z :=
  match column with
  | [] => []
  | None :: rest => -1 :: factorize_from uniques rest
  | Some s :: rest =>
      match index_of s uniques with
      | Some i => Z.of_nat i :: factorize_from uniques rest
      | None =>
          Z.of_nat (length uniques) :: factorize_from (uniques ++ [s]) rest
      end
  end.

Definition factorize (column : list (option string)) : list Z :=
  factorize_from [] column.

(** [geo_df['color_group'] = pd.factorize(...)[0] % len(colors)]; [%] takes
    the sign of the divisor, as [Z.modulo] does. *)
Definition color_group (geo_df : list GeoFact) : list Z :=
  (λ code, code `mod` Z.of_nat (length colors))
    <$> factorize (geo_customer_state <$> geo_df).

(** The specification's wording of the same numbering: the distinct
    states in first-seen order, and a state's position among them. *)
Fixpoint first_seen (column : list (option string)) : list string :=
  match column with
  | [] => []
  | None :: rest => first_seen rest
  | Some s :: rest => s :: filter (λ u, u ≠ s) (first_seen rest)
  end.

Definition enumeration_index (s : string) (column : list (option string))
    : option nat :=
  index_of s (first_seen column).

(** The states numbered so far, followed by the new states of the rest of
    the column in first-seen order. *)
Definition numbering (uniques : list string) (column : list (option string))
    : list string :=
  uniques ++ filter (λ u, u ∉ uniques) (first_seen column).

(** ** Brazil outline (lines 663-677)

    Statements either return or raise, and may call [st.warning]; a
    computation maps the warnings shown so far to an outcome and the
    warnings shown afterwards. *)

Inductive outcome (A : Type) : Type :=
  | Returned (a : A)
  | Raised (exn : string).
Global Arguments Returned {A} a.
Global Arguments Raised {A} exn.

Definition Script (A : Type) : Type := list string → outcome A * list string.

Global Instance script_ret : MRet Script := λ A a w, (Returned a, w).

Global Instance script_bind : MBind Script := λ A B k m w,
  match m w with
  | (Returned a, w') => k a w'
  | (Raised e, w') => (Raised e, w')
  end.

(** [st.warning(msg)] *)
Definition st_warning (msg : string) : Script unit :=
  λ w, (Returned tt, w ++ [msg]).

(** [try: body / except: handler], a bare [except] that catches
    everything. *)
Definition try_except {A} (body handler : Script A) : Script A :=
  λ w, match body w with
       | (Returned a, w') => (Returned a, w')
       | (Raised _, w') => handler w'
       end.

(** What [brazil] ends up bound to: a frame read from a dataset, or the
    frame built from the bounding box. *)
Inductive Outline (Frame : Type) : Type :=
  | FromDataset (frame : Frame)
  | FromBox (xmin ymin xmax ymax : Q).
Global Arguments FromDataset {Frame} frame.
Global Arguments FromBox {Frame} xmin ymin xmax ymax.

Definition approximate_brazil {Frame} : Outline Frame :=
  FromBox (-739922 # 10000) (-337683 # 10000) (-347299 # 10000) (52713 # 10000).

(** The two outer tiers are whatever reading and selecting from the
    bundled dataset ([naturalearth]) and from the downloaded one
    ([geo_countries]) do.  The last tier shows a warning and builds a
    frame from four constants; these calls return. *)
Definition brazil_outline {Frame} (naturalearth geo_countries : Script Frame)
    : Script (Outline Frame) :=
  try_except
    (world ← naturalearth; mret (FromDataset world))
    (try_except
       (countries ← geo_countries; mret (FromDataset countries))
       (_ ← st_warning "Couldn't download Brazil map, using approximate boundaries";
        mret approximate_brazil)).

(** ** Functional attributes

    [key] is a functional attribute of [val] in [df] when rows that agree
    on [val] agree on [key]: every customer has one state, every order one
    approval day. *)

Definition functional_attribute {R K V} (key : R → K) (val : R → V)
    (df : list R) : Prop :=
  ∀ r1 r2, r1 ∈ df → r2 ∈ df → val r1 = val r2 → key r1 = key r2.

Global Instance functional_attribute_dec {R} `{EqDecision K, EqDecision V}
    (key : R → K) (val : R → V) (df : list R) :
  Decision (functional_attribute key val df).
Proof.
  refine (cast_if (decide
    (Forall (λ r1, Forall (λ r2, val r1 = val r2 → key r1 = key r2) df) df)));
    unfold functional_attribute.
  - intros r1 r2 H1 H2.
    match goal with
    | HF : Forall _ df |- _ =>
        rewrite Forall_forall in HF; specialize (HF r1 H1);
        rewrite Forall_forall in HF; exact (HF r2 H2)
    end.
  - intros Hfun.
    match goal with HF : ¬ Forall _ df |- _ => apply HF end.
    apply Forall_forall; intros r1 H1. apply Forall_forall; intros r2 H2.
    by apply Hfun.
Defined.

(** ** Product sales distribution (lines 398-399)

    [all_df.groupby('name_product')['order_item_id'].count()]: the number of
    rows of each product label, [order_item_id] being always present.  The
    bottom list is sorted from the grouped counts, not from the top
    list. *)

Definition count_order_item_id (df : list OrderFact) : list (string * nat) :=
  (λ p, (p, length (group_rows name_product p df)))
    <$> group_keys name_product df.

Definition top_10_products (sort_values : SortValues (string * nat))
    (all_df : list OrderFact) : list (string * nat) :=
  take 10 (sort_values false (count_order_item_id all_df)).

Definition bottom_10_products (sort_values : SortValues (string * nat))
    (all_df : list OrderFact) : list (string * nat) :=
  take 10 (sort_values true (count_order_item_id all_df)).

(** ** Customer distribution by state (line 502)

    [all_df.groupby('customer_state')['customer_id'].nunique()
           .sort_values(ascending=False)] *)

Definition customer_state_counts (sort_values : SortValues ByState)
    (all_df : list OrderFact) : list ByState :=
  sort_values false (create_bystate_df all_df).

(** ** Best customers (lines 605-627)

    [rfm_df.sort_values(by=..., ascending=False).head(5)].  Rows whose
    sort key is missing are put last, in their input order, whatever the
    direction ([na_position='last']). *)



Definition frequency_key (row : Rfm) : Z := Z.of_nat (frequency row).


Definition top_frequency (sort_values : SortValues Rfm)
    (all_df : list OrderFact) : list Rfm :=
  take 5 (sort_values false (rfm_section all_df)).

(** ** Delivery status by seller city (lines 197-234)

    One row of [satisfaction_df.csv], restricted to the columns the late
    and on-time counts read; a missing status is [None]. *)

Record SatisfactionFact := {
  seller_city : string;
  delivery_status : option string;
}.

(** [df[df['delivery_status'] == status].groupby('seller_city')
      ['delivery_status'].count()] *)
Definition status_counts (status : string) (rows : list SatisfactionFact)
    : list (string * nat) :=
  let subset := filter (λ r, delivery_status r = Some status) rows in
  (λ c, (c, length (group_rows seller_city c subset)))
    <$> group_keys seller_city subset.

Definition top_10_late (sort_values : SortValues (string * nat))
    (rows : list SatisfactionFact) : list (string * nat) :=
  take 10 (sort_values false (status_counts "Late" rows)).

Definition bottom_10_late (sort_values : SortValues (string * nat))
    (rows : list SatisfactionFact) : list (string * nat) :=
  take 10 (sort_values true (status_counts "Late" rows)).

Definition top_10_ontime (sort_values : SortValues (string * nat))
    (rows : list SatisfactionFact) : list (string * nat) :=
  take 10 (sort_values false (status_counts "On Time" rows)).

Definition bottom_10_ontime (sort_values : SortValues (string * nat))
    (rows : list SatisfactionFact) : list (string * nat) :=
  take 10 (sort_values true (status_counts "On Time" rows)).

(** The key of a series of counts. *)
Definition count_key (entry : string * nat) : Z := Z.of_nat entry.2.

(** ** Column accesses of the satisfaction sections (lines 151-293)

    What the sections do to [satisfaction_df] as far as its column names
    go: selecting a column that is not there raises [KeyError].  The
    drawing calls in between are left out. *)

Definition getitem (columns : list string) (col : string) : Script unit :=
  λ w, if decide (col ∈ columns) then (Returned tt, w)
       else (Raised ("KeyError: " +:+ col), w).

(** [df.groupby(by)[col]] *)
Definition groupby_getitem (columns : list string) (by_col col : string)
    : Script unit :=
  _ ← getitem columns by_col; getitem columns col.

(** [df[df['delivery_status'] == ...].groupby('seller_city')
      ['delivery_status']] *)
Definition status_ranking (columns : list string) : Script unit :=
  _ ← getitem columns "delivery_status";
  groupby_getitem columns "seller_city" "delivery_status".

Definition review_score_warning : string :=
  "No 'review_score' column found in the dataset. Cannot display review analysis.".

Definition satisfaction_sections (columns : list string) : Script unit :=
  _ ← groupby_getitem columns "seller_city" "review_score";
  _ ← groupby_getitem columns "seller_city" "time_deliver_tocarrier";
  _ ← status_ranking columns;
  _ ← status_ranking columns;
  _ ← status_ranking columns;
  _ ← status_ranking columns;
  if decide ("review_score" ∈ columns)
  then groupby_getitem columns "seller_city" "review_score"
  else st_warning review_score_warning.

(** ** Plotting the customer points (lines 681, 689-693)

    [color_mapping] gives every index of the palette its colour.  For each
    of them in turn the rows of that colour group are selected and, unless
    there are none, drawn in one call labelled with the state of the first
    of them. *)

Definition color_mapping : list (Z * string) :=
  imap (λ i color, (Z.of_nat i, color)) colors.

Definition subset_of_group (geo_df : list GeoFact) (i : Z) : list GeoFact :=
  (filter (λ p, p.2 = i) (zip geo_df (color_group geo_df))).*1.

Record Layer := {
  layer_color : string;
  layer_label : option string;
  layer_points : list GeoFact;
}.

Definition plot_layers (geo_df : list GeoFact) : list Layer :=
  omap (λ '(i, color),
          match subset_of_group geo_df i with
          | [] => None
          | g :: rest =>
              Some {| layer_color := color;
                      layer_label := geo_customer_state g;
                      layer_points := g :: rest |}
          end) color_mapping.

(** ** Sample tables

    Small inputs on which the derivations are evaluated further down. *)

(** 2023-01-[d] as a day number (2023-01-01 is day 19358). *)
Definition jan (d : Z) : Z := 19357 + d.

(** [hh]:00 on day [d]. *)
Definition at_hour (d hh : Z) : option Z :=
  Some (to_datetime d + hh * 3600000000000).

Definition order_line (oid : string) (item : Z) (cid st : string)
    (approved : option Z) (label : string) : OrderFact :=
  {| order_id := oid; order_item_id := item; customer_id := cid;
     customer_state := st; order_approved_at := approved;
     price := 10%Q; payment_value := 10%Q; name_product := label |}.

(** One order, approved on 2023-01-03 at 09:00. *)
Definition morning_order : list OrderFact :=
  [order_line "o1" 1 "A" "SP" (at_hour (jan 3) 9) "toys"].

(** Two customers, one order each, nineteen days apart. *)
Definition two_customers : list OrderFact :=
  [order_line "o1" 1 "A" "SP" (at_hour (jan 1) 10) "toys";
   order_line "o2" 1 "B" "RJ" (at_hour (jan 20) 10) "toys"].

(** Orders on 2023-01-01 and 2023-01-03, none on 2023-01-02. *)
Definition gap_day : list OrderFact :=
  [order_line "o1" 1 "A" "SP" (at_hour (jan 1) 10) "toys";
   order_line "o2" 1 "B" "SP" (at_hour (jan 3) 10) "toys"].

(** Two lines of one order whose approval stamps fall on different days. *)
Definition order_over_midnight : list OrderFact :=
  [order_line "o1" 1 "A" "SP" (at_hour (jan 1) 23) "toys";
   order_line "o1" 2 "A" "SP" (at_hour (jan 2) 1) "books"].

(** Customer A orders at 23:00, customer B two hours later on the next
    day. *)
Definition late_evening : list OrderFact :=
  [order_line "o1" 1 "A" "SP" (at_hour (jan 9) 23) "toys";
   order_line "o2" 1 "B" "SP" (at_hour (jan 10) 1) "toys"].

(** The scenario of the specification: three orders, two customers,
    prices 10, 20 and 5. *)
Definition scenario : list OrderFact :=
  [{| order_id := "1"; order_item_id := 1; customer_id := "A";
      customer_state := "SP"; order_approved_at := at_hour (jan 1) 0;
      price := 10%Q; payment_value := 10%Q; name_product := "toys" |};
   {| order_id := "2"; order_item_id := 1; customer_id := "A";
      customer_state := "SP"; order_approved_at := at_hour (jan 2) 0;
      price := 20%Q; payment_value := 20%Q; name_product := "toys" |};
   {| order_id := "3"; order_item_id := 1; customer_id := "B";
      customer_state := "SP"; order_approved_at := at_hour (jan 2) 0;
      price := 5%Q; payment_value := 5%Q; name_product := "books" |}].

(** Customer A's latest order is from 2023-01-02, the latest order of the
    table from 2023-01-10. *)
Definition eight_days : list OrderFact :=
  [order_line "o1" 1 "A" "SP" (at_hour (jan 2) 12) "toys";
   order_line "o2" 1 "B" "SP" (at_hour (jan 10) 12) "toys"].

(** Customer C's only order was never approved. *)
Definition never_approved : list OrderFact :=
  [order_line "o1" 1 "A" "SP" (at_hour (jan 9) 23) "toys";
   order_line "o2" 1 "C" "SP" None "toys"].

(** Ten products, one line each, so all quantities are 1. *)
Definition ten_products : list OrderFact :=
  (λ label, order_line "o1" 1 "A" "SP" (at_hour (jan 1) 10) label)
    <$> ["a"; "b"; "c"; "d"; "e"; "f"; "g"; "h"; "i"; "j"]%string.

(** Ten products with quantities 1 to 10: product number [n] is line [n]
    of the order. *)
Definition ten_ranked_products : list OrderFact :=
  (λ '(label, n), order_line "o1" n "A" "SP" (at_hour (jan 1) 10) label)
    <$> [("a", 1); ("b", 2); ("c", 3); ("d", 4); ("e", 5);
         ("f", 6); ("g", 7); ("h", 8); ("i", 9); ("j", 10)]%string.

(** An order with three lines of one product. *)
Definition three_lines : list OrderFact :=
  [order_line "o7" 1 "A" "SP" (at_hour (jan 1) 10) "toys";
   order_line "o7" 2 "A" "SP" (at_hour (jan 1) 10) "toys";
   order_line "o7" 3 "A" "SP" (at_hour (jan 1) 10) "toys"].

Definition geo_point (st : option string) : GeoFact :=
  {| geolocation_lat := (-23 # 1)%Q; geolocation_lng := (-46 # 1)%Q;
     geo_customer_state := st |}.

Definition geo_sample : list GeoFact :=
  geo_point <$> [Some "SP"; Some "RJ"; Some "SP"; None; Some "MG"]%string.

(** Deliveries of three sellers: two late and one on time from
    "ibitinga", one late from "sao paulo", one on time from "franca". *)
Definition deliveries : list SatisfactionFact :=
  [{| seller_city := "ibitinga"; delivery_status := Some "Late" |};
   {| seller_city := "sao paulo"; delivery_status := Some "Late" |};
   {| seller_city := "ibitinga"; delivery_status := Some "On Time" |};
   {| seller_city := "ibitinga"; delivery_status := Some "Late" |};
   {| seller_city := "franca"; delivery_status := Some "On Time" |}]%string.

(** Nine states, so the ninth shares a colour group with the first. *)
Definition nine_states : list GeoFact :=
  geo_point <$> [Some "SP"; Some "RJ"; Some "MG"; Some "RS"; Some "PR";
                 Some "SC"; Some "BA"; Some "DF"; Some "ES"; Some "SP"]%string.

(** Three states over four points. *)
Definition three_states : list GeoFact :=
  geo_point <$> [Some "SP"; Some "RJ"; Some "SP"; Some "MG"]%string.

(** Six rows, four orders: order "o7" has three lines. *)
Definition multi_line_orders : list OrderFact := three_lines ++ scenario.



(** * Properties *)

(** ** Column helpers *)

Section column_facts.
Context `{Countable A}.

(** The number of distinct values is the size of the set of values. *)
Lemma nunique_size (xs : list A) :
  nunique xs = size (list_to_set (C:=gset A) xs).
Proof.
  unfold nunique. rewrite <-(size_list_to_set (C:=gset A)) by apply NoDup_remove_dups.
  f_equal. apply set_eq. intros x.
  by rewrite !elem_of_list_to_set, elem_of_remove_dups.
Qed.

Lemma nunique_nil_iff (xs : list A) : nunique xs = 0%nat ↔ xs = [].
Proof.
  rewrite nunique_size, size_empty_iff. split.
  - intros Hxs. destruct xs as [|x xs]; [done|]. set_solver.
  - by intros ->.
Qed.
End column_facts.

(** Splitting a table by a key on which the counted column depends: the
    per-group distinct counts add up to the overall distinct count. *)
Section grouped_nunique.
Context {R : Type} `{Countable K} `{Countable V}.
Context (key : R → K) (val : R → V) (df : list R).
Hypothesis functional :
  ∀ r1 r2, r1 ∈ df → r2 ∈ df → val r1 = val r2 → key r1 = key r2.

Let values_in (ks : list K) : gset V :=
  list_to_set (val <$> filter (λ r, key r ∈ ks) df).

Lemma elem_of_values_in v ks :
  v ∈ values_in ks ↔ ∃ r, r ∈ df ∧ key r ∈ ks ∧ val r = v.
Proof.
  unfold values_in. rewrite elem_of_list_to_set, list_elem_of_fmap.
  setoid_rewrite list_elem_of_filter. split.
  - intros (r & -> & ? & ?). by exists r.
  - intros (r & ? & ? & <-). by exists r.
Qed.

Lemma elem_of_group_values v k :
  v ∈ list_to_set (C:=gset V) (val <$> group_rows key k df)
    ↔ ∃ r, r ∈ df ∧ key r = k ∧ val r = v.
Proof.
  unfold group_rows. rewrite elem_of_list_to_set, list_elem_of_fmap.
  setoid_rewrite list_elem_of_filter. split.
  - intros (r & -> & ? & ?). by exists r.
  - intros (r & ? & ? & <-). by exists r.
Qed.

Lemma values_in_cons k ks :
  values_in (k :: ks) =
    list_to_set (val <$> group_rows key k df) ∪ values_in ks.
Proof.
  apply set_eq. intros v.
  rewrite elem_of_union, elem_of_group_values, !elem_of_values_in. split.
  - intros (r & ? & [?|?]%elem_of_cons & ?); [left|right]; by exists r.
  - intros [(r & ? & ? & ?)|(r & ? & ? & ?)]; exists r;
      rewrite elem_of_cons; auto.
Qed.

Lemma sum_nunique_groups_in (ks : list K) :
  NoDup ks →
  sum_list ((λ k, nunique (val <$> group_rows key k df)) <$> ks)
    = size (values_in ks).
Proof.
  induction 1 as [|k ks Hk Hks IH].
  - replace (values_in []) with (∅ : gset V); [done|].
    symmetry. apply set_eq. intros v. rewrite elem_of_values_in.
    split; [|by intros ?%not_elem_of_empty].
    intros (r & _ & []%elem_of_nil & _).
  - rewrite values_in_cons, size_union, <-IH, <-nunique_size; [done|].
    intros v. rewrite elem_of_group_values, elem_of_values_in.
    intros (r1 & Hr1 & Hk1 & Hv1) (r2 & Hr2 & Hk2 & Hv2).
    apply Hk. rewrite <-Hk1, (functional r1 r2); [done..|]. congruence.
Qed.

Lemma sum_nunique_groups (ks : list K) :
  NoDup ks → (∀ r, r ∈ df → key r ∈ ks) →
  sum_list ((λ k, nunique (val <$> group_rows key k df)) <$> ks)
    = nunique (val <$> df).
Proof.
  intros Hks Hall. rewrite sum_nunique_groups_in, nunique_size by done.
  f_equal. apply set_eq. intros v.
  rewrite elem_of_values_in, elem_of_list_to_set, list_elem_of_fmap. split.
  - intros (r & ? & ? & <-). by exists r.
  - intros (r & -> & ?). exists r. auto.
Qed.
End grouped_nunique.

(** ** Groups *)

Lemma group_keys_perm {R} (key : R → string) (df : list R) :
  group_keys key df ≡ₚ remove_dups (key <$> df).
Proof. apply merge_sort_Permutation. Qed.

Lemma NoDup_group_keys {R} (key : R → string) (df : list R) :
  NoDup (group_keys key df).
Proof. rewrite group_keys_perm. apply NoDup_remove_dups. Qed.

Lemma elem_of_group_keys {R} (key : R → string) (df : list R) k :
  k ∈ group_keys key df ↔ ∃ r, r ∈ df ∧ key r = k.
Proof.
  rewrite group_keys_perm, elem_of_remove_dups, list_elem_of_fmap.
  split; intros (r & ? & ?); by exists r.
Qed.

Lemma length_group_keys {R} (key : R → string) (df : list R) :
  length (group_keys key df) = nunique (key <$> df).
Proof. unfold nunique. by rewrite group_keys_perm. Qed.

Lemma elem_of_group_rows {R} `{EqDecision K} (key : R → K) k (df : list R) r :
  r ∈ group_rows key k df ↔ key r = k ∧ r ∈ df.
Proof. unfold group_rows. by rewrite list_elem_of_filter. Qed.

(** ** Minimum and maximum of a column *)

Lemma max_skipna_None xs : max_skipna xs = None ↔ ∀ x, Some x ∉ xs.
Proof.
  induction xs as [|[a|] xs IH]; simpl.
  - split; [|done]. intros _ x. apply not_elem_of_nil.
  - split; [by destruct (max_skipna xs)|].
    intros Hall. destruct (Hall a). apply list_elem_of_here.
  - rewrite IH. split; intros Hall x.
    + rewrite elem_of_cons. intros [?|?]; [done|]. by apply (Hall x).
    + intros ?. apply (Hall x). by apply list_elem_of_further.
Qed.

Lemma max_skipna_Some xs m :
  max_skipna xs = Some m ↔ Some m ∈ xs ∧ ∀ x, Some x ∈ xs → x ≤ m.
Proof.
  revert m. induction xs as [|[a|] xs IH]; intros m; simpl.
  - split; [done|]. by intros [?%elem_of_nil _].
  - destruct (max_skipna xs) as [b|] eqn:Hmax.
    + destruct (proj1 (IH b) eq_refl) as [Hb Hle]. split.
      * intros [= <-]. split.
        { destruct (Z.max_spec a b) as [[_ ->]|[_ ->]];
            [by apply list_elem_of_further|by apply list_elem_of_here]. }
        intros x [[= ->]|Hx]%elem_of_cons; [lia|]. apply Hle in Hx. lia.
      * intros [Hm Hall]. f_equal.
        assert (a ≤ m) by apply Hall, list_elem_of_here.
        assert (b ≤ m) by by apply Hall, list_elem_of_further.
        apply elem_of_cons in Hm as [[= ->]|Hm]; [lia|].
        apply Hle in Hm. lia.
    + pose proof (proj1 (max_skipna_None xs) Hmax) as Hnone. split.
      * intros [= <-]. split; [apply list_elem_of_here|].
        intros x [[= ->]|Hx]%elem_of_cons; [lia|]. by apply Hnone in Hx.
      * intros [[[= ->]|Hm]%elem_of_cons _]; [done|]. by apply Hnone in Hm.
  - rewrite IH. split; intros [Hm Hall]; split.
    + by apply list_elem_of_further.
    + intros x [?|?]%elem_of_cons; [done|]. by apply Hall.
    + by apply elem_of_cons in Hm as [?|?].
    + intros x ?. by apply Hall, list_elem_of_further.
Qed.

Lemma min_skipna_None xs : min_skipna xs = None ↔ ∀ x, Some x ∉ xs.
Proof.
  induction xs as [|[a|] xs IH]; simpl.
  - split; [|done]. intros _ x. apply not_elem_of_nil.
  - split; [by destruct (min_skipna xs)|].
    intros Hall. destruct (Hall a). apply list_elem_of_here.
  - rewrite IH. split; intros Hall x.
    + rewrite elem_of_cons. intros [?|?]; [done|]. by apply (Hall x).
    + intros ?. apply (Hall x). by apply list_elem_of_further.
Qed.

Lemma min_skipna_Some xs m :
  min_skipna xs = Some m ↔ Some m ∈ xs ∧ ∀ x, Some x ∈ xs → m ≤ x.
Proof.
  revert m. induction xs as [|[a|] xs IH]; intros m; simpl.
  - split; [done|]. by intros [?%elem_of_nil _].
  - destruct (min_skipna xs) as [b|] eqn:Hmin.
    + destruct (proj1 (IH b) eq_refl) as [Hb Hle]. split.
      * intros [= <-]. split.
        { destruct (Z.min_spec a b) as [[_ ->]|[_ ->]];
            [by apply list_elem_of_here|by apply list_elem_of_further]. }
        intros x [[= ->]|Hx]%elem_of_cons; [lia|]. apply Hle in Hx. lia.
      * intros [Hm Hall]. f_equal.
        assert (m ≤ a) by apply Hall, list_elem_of_here.
        assert (m ≤ b) by by apply Hall, list_elem_of_further.
        apply elem_of_cons in Hm as [[= ->]|Hm]; [lia|].
        apply Hle in Hm. lia.
    + pose proof (proj1 (min_skipna_None xs) Hmin) as Hnone. split.
      * intros [= <-]. split; [apply list_elem_of_here|].
        intros x [[= ->]|Hx]%elem_of_cons; [lia|]. by apply Hnone in Hx.
      * intros [[[= ->]|Hm]%elem_of_cons _]; [done|]. by apply Hnone in Hm.
  - rewrite IH. split; intros [Hm Hall]; split.
    + by apply list_elem_of_further.
    + intros x [?|?]%elem_of_cons; [done|]. by apply Hall.
    + by apply elem_of_cons in Hm as [?|?].
    + intros x ?. by apply Hall, list_elem_of_further.
Qed.

(** ** The date-range filter *)

Lemma ns_per_day_pos : 0 < ns_per_day.
Proof. done. Qed.

Lemma elem_of_main_df all_df start_date end_date r :
  r ∈ main_df all_df start_date end_date ↔
    r ∈ all_df ∧ ∃ t, order_approved_at r = Some t
                      ∧ to_datetime start_date ≤ t ≤ to_datetime end_date.
Proof.
  unfold main_df. rewrite list_elem_of_filter. unfold approved_between.
  destruct (order_approved_at r) as [t|]; split.
  - intros [? ?]. eauto.
  - intros [? (t' & [= <-] & ?)]. done.
  - by intros [[] _].
  - by intros [_ (t' & [=] & _)].
Qed.

Lemma main_df_approved all_df start_date end_date r :
  r ∈ main_df all_df start_date end_date → is_Some (approved_day r).
Proof.
  intros (_ & t & Ht & _)%elem_of_main_df. unfold approved_day.
  rewrite Ht. by eexists.
Qed.

(** A row approved on the end date is kept only when its stamp is exactly
    midnight. *)
Lemma main_df_end_date all_df start_date end_date r t :
  r ∈ all_df → order_approved_at r = Some t → date_of t = end_date →
  start_date ≤ end_date →
  r ∈ main_df all_df start_date end_date ↔ t = to_datetime end_date.
Proof.
  intros Hr Ht Hday Hle. rewrite elem_of_main_df.
  unfold date_of, to_datetime, ns_per_day in *.
  split.
  - intros (_ & t' & Ht' & ? & ?). assert (t' = t) as -> by congruence.
    pose proof (Z.mul_div_le t 86400000000000). lia.
  - intros ->. split; [done|]. exists (end_date * 86400000000000). split; [done|].
    nia.
Qed.

(** The filter in terms of calendar dates: the start date is taken whole,
    the end date only at its first instant. *)
Lemma main_df_dates all_df start_date end_date r :
  r ∈ main_df all_df start_date end_date ↔
    r ∈ all_df ∧ ∃ t, order_approved_at r = Some t
                      ∧ start_date ≤ date_of t
                      ∧ (date_of t < end_date ∨ t = to_datetime end_date).
Proof.
  rewrite elem_of_main_df. unfold date_of, to_datetime.
  pose proof ns_per_day_pos as Hpos. generalize dependent ns_per_day.
  intros p Hp.
  assert (∀ t d, d * p ≤ t ↔ d ≤ t `div` p) as Hge.
  { intros t d. split; intros Hd.
    - apply Z.div_le_lower_bound; lia.
    - pose proof (Z.mul_div_le t p Hp). nia. }
  assert (∀ t d, t < d * p ↔ t `div` p < d) as Hlt.
  { intros t d. pose proof (Hge t d). lia. }
  split; intros [Hin (t & Ht & H1 & H2)]; (split; [done|]); exists t;
    (split; [done|]); rewrite <-Hge, <-Hlt in *; lia.
Qed.

(** C3 (date-range filter).  The end boundary is the midnight that starts
    the end date, and stamps are compared with it as they are: an order
    approved at 09:00 on 2023-01-03 is on a calendar date inside the range
    2023-01-01 .. 2023-01-03, and the filter returns nothing.  The same
    happens with the range the date picker starts from, the first and last
    date of the table. *)
Theorem C3_end_date_rows_dropped :
  (∀ r, r ∈ morning_order → approved_day r = Some (jan 3))
  ∧ jan 1 ≤ jan 3 ≤ jan 3
  ∧ main_df morning_order (jan 1) (jan 3) = []
  ∧ min_skipna (approved_day <$> morning_order) = Some (jan 3)
  ∧ max_skipna (approved_day <$> morning_order) = Some (jan 3)
  ∧ main_df morning_order (jan 3) (jan 3) = [].
Proof.
  split; [|split_and!; by vm_compute].
  intros r ->%list_elem_of_singleton. by vm_compute.
Qed.

(** ** The RFM table on screen *)

(** The table read by the RFM section is a function of [all_df] alone. *)
Lemma rfm_df_any_range sort_values all_df start_date end_date :
  rfm_df (dashboard sort_values all_df start_date end_date) = rfm_section all_df.
Proof. done. Qed.

(** C1 (RFM input).  With the range 2023-01-01 .. 2023-01-10 selected, the
    filtered table holds customer A only and [create_rfm_df] gives A
    recency 0; the table the RFM section reads still lists customer B,
    whose only order is from 2023-01-20, and measures A's recency from
    that order. *)
Theorem C1_rfm_section_ignores_range :
  let d := dashboard (stable_sort_values quantity) two_customers (jan 1) (jan 10) in
  customer_id <$> main_df two_customers (jan 1) (jan 10) = ["A"]
  ∧ (λ row, (rfm_customer_id row, recency row)) <$> rfm_df_line_85 d
      = [("A", Some 0)]
  ∧ (λ row, (rfm_customer_id row, recency row)) <$> rfm_df d
      = [("A", Some 19); ("B", Some 0)].
Proof. by vm_compute. Qed.

(** ** Customers by state *)

Lemma customer_count_sum df :
  sum_list (customer_count <$> create_bystate_df df)
    = sum_list ((λ s, nunique (customer_id <$> group_rows customer_state s df))
                  <$> group_keys customer_state df).
Proof.
  unfold create_bystate_df. rewrite <-list_fmap_compose. done.
Qed.



(** ** Daily orders *)

Lemma daily_days df first_day last_day :
  min_skipna (approved_day <$> df) = Some first_day →
  max_skipna (approved_day <$> df) = Some last_day →
  day <$> create_daily_orders_df df = seqZ first_day (last_day - first_day + 1).
Proof.
  intros Hmin Hmax. unfold create_daily_orders_df. rewrite Hmin, Hmax.
  rewrite <-list_fmap_compose. apply list_fmap_id.
Qed.

Lemma daily_empty df :
  (∀ d, Some d ∉ approved_day <$> df) → create_daily_orders_df df = [].
Proof.
  intros Hnone. unfold create_daily_orders_df.
  by rewrite (proj2 (min_skipna_None _) Hnone).
Qed.

Lemma skipna_bounds xs :
  (∃ d, Some d ∈ xs) → ∃ lo hi, min_skipna xs = Some lo ∧ max_skipna xs = Some hi.
Proof.
  intros [d Hd].
  destruct (min_skipna xs) as [lo|] eqn:Hmin;
    [|by apply min_skipna_None with (x := d) in Hmin].
  destruct (max_skipna xs) as [hi|] eqn:Hmax;
    [|by apply max_skipna_None with (x := d) in Hmax].
  eauto.
Qed.

Lemma StronglySorted_seqZ m n : StronglySorted Z.lt (seqZ m n).
Proof.
  destruct (decide (0 ≤ n)) as [Hn|Hn]; [|rewrite seqZ_nil by lia; constructor].
  rewrite <-(Z2Nat.id n) by done. clear Hn.
  induction (Z.to_nat n) as [|k IH]; [constructor|].
  rewrite seqZ_S. apply StronglySorted_app. split; [|split; [done|]].
  - intros x1 x2 Hx1%elem_of_seqZ ->%list_elem_of_singleton. lia.
  - repeat constructor.
Qed.

(** The days of the rollup are all the days between two approval days. *)
Lemma elem_of_daily_days df d :
  d ∈ day <$> create_daily_orders_df df ↔
    ∃ d1 d2, Some d1 ∈ approved_day <$> df ∧ Some d2 ∈ approved_day <$> df
             ∧ d1 ≤ d ≤ d2.
Proof.
  destruct (min_skipna (approved_day <$> df)) as [lo0|] eqn:Hmin0.
  - assert (∃ d0, Some d0 ∈ approved_day <$> df) as Hsome.
    { exists lo0. by apply min_skipna_Some in Hmin0 as [? _]. }
    clear lo0 Hmin0.
    destruct (skipna_bounds _ Hsome) as (lo & hi & Hmin & Hmax).
    rewrite (daily_days df lo hi Hmin Hmax), elem_of_seqZ.
    apply min_skipna_Some in Hmin as [Hlo Hlo_le].
    apply max_skipna_Some in Hmax as [Hhi Hhi_le]. split.
    + intros ?. exists lo, hi. split_and!; [done|done|lia..].
    + intros (d1 & d2 & Hd1%Hlo_le & Hd2%Hhi_le & ?). lia.
  - pose proof (proj1 (min_skipna_None _) Hmin0) as Hnone.
    rewrite daily_empty by done. split.
    + by intros ?%elem_of_nil.
    + intros (d1 & _ & Hd1 & _). by apply Hnone in Hd1.
Qed.

Lemma rows_of_day_nil df d :
  rows_of_day d df = [] ↔ ∀ r, r ∈ df → approved_day r ≠ Some d.
Proof.
  unfold rows_of_day. split.
  - intros Hnil r Hr Hday.
    assert (r ∈ group_rows approved_day (Some d) df) as Hin
      by by apply elem_of_group_rows.
    rewrite Hnil in Hin. by apply elem_of_nil in Hin.
  - intros Hnone. apply elem_of_nil_inv.
    intros r [Hday Hr]%elem_of_group_rows. by apply (Hnone r).
Qed.

Lemma elem_of_daily df row :
  row ∈ create_daily_orders_df df → row = daily_bin df (day row).
Proof.
  unfold create_daily_orders_df.
  destruct (min_skipna (approved_day <$> df)),
    (max_skipna (approved_day <$> df)); try by intros ?%elem_of_nil.
  by intros (d & -> & _)%list_elem_of_fmap.
Qed.

(** C2 (daily rollup), as the code has it.  The rollup has one row for
    every calendar day from the earliest to the latest approval day of the
    table, in ascending order and without repetition; each row counts the
    distinct orders of its day, and a day in between on which nothing was
    approved has a row too, with order count 0 and revenue 0. *)
Theorem C2_daily_rows df :
  (∀ d, d ∈ day <$> create_daily_orders_df df ↔
     ∃ d1 d2, Some d1 ∈ approved_day <$> df ∧ Some d2 ∈ approved_day <$> df
              ∧ d1 ≤ d ≤ d2)
  ∧ StronglySorted Z.lt (day <$> create_daily_orders_df df)
  ∧ ∀ row, row ∈ create_daily_orders_df df →
      order_count row = nunique (order_id <$> rows_of_day (day row) df)
      ∧ (order_count row = 0%nat ↔
           ∀ r, r ∈ df → approved_day r ≠ Some (day row))
      ∧ ((∀ r, r ∈ df → approved_day r ≠ Some (day row)) →
         revenue row = 0%Q).
Proof.
  split; [apply elem_of_daily_days|split].
  - destruct (min_skipna (approved_day <$> df)) as [lo|] eqn:Hmin.
    + destruct (max_skipna (approved_day <$> df)) as [hi|] eqn:Hmax.
      * rewrite (daily_days df lo hi) by done. apply StronglySorted_seqZ.
      * unfold create_daily_orders_df. rewrite Hmin, Hmax. constructor.
    + unfold create_daily_orders_df. rewrite Hmin. constructor.
  - intros row Hrow%elem_of_daily. split_and!.
    + by rewrite Hrow at 1.
    + rewrite Hrow at 1. simpl.
      rewrite nunique_nil_iff, <-rows_of_day_nil. split.
      * apply fmap_nil_inv.
      * by intros ->.
    + intros Hnone%rows_of_day_nil. rewrite Hrow at 1. simpl.
      by rewrite Hnone.
Qed.

(** The claim as written fails on a filtered table with orders on
    2023-01-01 and 2023-01-03 only: the rollup has a row for 2023-01-02. *)
Lemma C2_counterexample :
  let df := main_df gap_day (jan 1) (jan 4) in
  df ≠ []
  ∧ (λ row, (day row, order_count row, Qred (revenue row)))
      <$> create_daily_orders_df df
      = [(jan 1, 1%nat, 10%Q); (jan 2, 0%nat, 0%Q); (jan 3, 1%nat, 10%Q)]
  ∧ ¬ (∀ row, row ∈ create_daily_orders_df df →
         ∃ r, r ∈ df ∧ approved_day r = Some (day row)).
Proof.
  split; [by vm_compute|split; [by vm_compute|]].
  intros Hall. destruct (Hall (daily_bin gap_day (jan 2))) as (r & Hr & Hday).
  - vm_compute. apply list_elem_of_further, list_elem_of_here.
  - revert Hr Hday.
    assert (main_df gap_day (jan 1) (jan 4) = gap_day) as -> by (by vm_compute).
    unfold gap_day. rewrite !elem_of_cons, elem_of_nil.
    intros [->|[->|[]]]; by vm_compute.
Qed.

(** ** Total orders *)

(** C5 (total orders), as the code has it.  Each day counts its own
    distinct orders, so the total is the number of distinct orders when
    no order has lines approved on two different days. *)
Theorem C5_total_orders all_df start_date end_date :
  functional_attribute approved_day order_id (main_df all_df start_date end_date) →
  total_orders (create_daily_orders_df (main_df all_df start_date end_date))
    = nunique (order_id <$> main_df all_df start_date end_date).
Proof.
  set (df := main_df all_df start_date end_date). intros Hfun.
  assert (∀ r, r ∈ df → is_Some (approved_day r)) as Happroved
    by (intros r; apply main_df_approved).
  destruct (min_skipna (approved_day <$> df)) as [lo|] eqn:Hmin.
  - destruct (skipna_bounds (approved_day <$> df)) as (lo' & hi & Hmin' & Hmax).
    { exists lo. by apply min_skipna_Some in Hmin as [? _]. }
    assert (lo' = lo) as -> by congruence. clear Hmin'.
    unfold total_orders, create_daily_orders_df. rewrite Hmin, Hmax.
    rewrite <-list_fmap_compose.
    rewrite <-(sum_nunique_groups approved_day order_id df Hfun
                 (Some <$> seqZ lo (hi - lo + 1))).
    + by rewrite <-list_fmap_compose.
    + apply NoDup_fmap_2; [apply _|apply NoDup_seqZ].
    + intros r Hr. destruct (Happroved r Hr) as [d Hd]. rewrite Hd.
      apply list_elem_of_fmap_2, elem_of_seqZ.
      apply min_skipna_Some in Hmin as [_ Hlo].
      apply max_skipna_Some in Hmax as [_ Hhi].
      assert (Some d ∈ approved_day <$> df) as Hin
        by (rewrite <-Hd; by apply list_elem_of_fmap_2).
      pose proof (Hlo d Hin). pose proof (Hhi d Hin). lia.
  - pose proof (proj1 (min_skipna_None _) Hmin) as Hnone.
    assert (df = []) as ->; [|done].
    apply elem_of_nil_inv. intros r Hr.
    destruct (Happroved r Hr) as [d Hd]. apply (Hnone d).
    rewrite <-Hd. by apply list_elem_of_fmap_2.
Qed.

(** Six rows of four orders, one of them with three lines, each order
    approved on one day: the total is 4, the distinct orders, not the 6
    rows. *)
Lemma C5_total_orders_witness :
  total_orders
      (create_daily_orders_df (main_df multi_line_orders (jan 1) (jan 2)))
    = nunique (order_id <$> main_df multi_line_orders (jan 1) (jan 2))
  ∧ nunique (order_id <$> main_df multi_line_orders (jan 1) (jan 2)) = 4%nat
  ∧ length (main_df multi_line_orders (jan 1) (jan 2)) = 6%nat.
Proof.
  split; [|by vm_compute].
  apply (C5_total_orders multi_line_orders (jan 1) (jan 2)). compute_done.
Defined.

(** The claim as written fails when one order has lines approved either
    side of midnight: it is counted on both days. *)
Lemma C5_counterexample :
  let df := main_df order_over_midnight (jan 1) (jan 3) in
  total_orders (create_daily_orders_df df) = 2%nat
  ∧ nunique (order_id <$> df) = 1%nat
  ∧ total_orders (create_daily_orders_df df) ≠ nunique (order_id <$> df).
Proof. by vm_compute. Qed.

(** The first scenario of the specification. *)
Example scenario_rollup :
  (λ row, (day row, order_count row, Qred (revenue row)))
    <$> create_daily_orders_df (main_df scenario (jan 1) (jan 2))
    = [(jan 1, 1%nat, 10%Q); (jan 2, 2%nat, 25%Q)]
  ∧ create_bystate_df (main_df scenario (jan 1) (jan 2))
    = [{| state := "SP"; customer_count := 2 |}].
Proof. by vm_compute. Qed.

(** The second scenario: latest order 2023-01-02, reference date
    2023-01-10, recency 8. *)
Example scenario_recency :
  (λ row, (rfm_customer_id row, recency row)) <$> create_rfm_df eight_days
    = [("A", Some 8); ("B", Some 0)].
Proof. by vm_compute. Qed.

(** ** Recency *)

Lemma date_of_mono x y : x ≤ y → date_of x ≤ date_of y.
Proof. intros. apply Z.div_le_mono; [apply ns_per_day_pos|done]. Qed.

(** Stamps on one calendar day are less than a day apart. *)
Lemma same_day_close x y : x ≤ y → date_of x = date_of y → y - x < ns_per_day.
Proof.
  unfold date_of. pose proof ns_per_day_pos as Hpos.
  generalize dependent ns_per_day. intros p Hp Hxy Hdiv.
  pose proof (Z.div_mod x p ltac:(lia)). pose proof (Z.div_mod y p ltac:(lia)).
  pose proof (Z.mod_pos_bound x p Hp). pose proof (Z.mod_pos_bound y p Hp).
  rewrite Hdiv in *. lia.
Qed.

Lemma timedelta_days_zero x y :
  x ≤ y → timedelta_days (y - x) = 0 ↔ y - x < ns_per_day.
Proof.
  intros Hxy. unfold timedelta_days. rewrite Z.div_small_iff.
  - pose proof ns_per_day_pos. lia.
  - pose proof ns_per_day_pos. lia.
Qed.

Lemma timedelta_days_nonneg x y : x ≤ y → 0 ≤ timedelta_days (y - x).
Proof.
  intros. apply Z.div_pos; [lia|apply ns_per_day_pos].
Qed.

Lemma max_skipna_cons o xs :
  max_skipna (o :: xs) =
    match o, max_skipna xs with
    | Some a, Some b => Some (Z.max a b)
    | Some a, None => Some a
    | None, acc => acc
    end.
Proof. done. Qed.

(** The latest calendar day is the day of the latest stamp. *)
Lemma max_skipna_date_of (xs : list (option Z)) :
  max_skipna (fmap (M:=option) date_of <$> xs) = date_of <$> max_skipna xs.
Proof.
  induction xs as [|[a|] xs IH]; [done| |done].
  rewrite fmap_cons, !max_skipna_cons, IH.
  destruct (max_skipna xs) as [b|]; simpl; [|done].
  f_equal. destruct (Z.max_spec a b) as [[Hab ->]|[Hab ->]].
  - apply Z.max_r, date_of_mono. lia.
  - by apply Z.max_l, date_of_mono.
Qed.

Lemma recent_date_of_stamp df :
  max_skipna (approved_day <$> df)
    = date_of <$> max_skipna (order_approved_at <$> df).
Proof.
  rewrite <-max_skipna_date_of, <-list_fmap_compose. done.
Qed.

(** A customer's stamps are among the table's stamps. *)
Lemma latest_stamp_bound c df x :
  latest_stamp c df = Some x →
  ∃ now, max_skipna (order_approved_at <$> df) = Some now ∧ x ≤ now.
Proof.
  unfold latest_stamp. intros [Hx _]%max_skipna_Some.
  apply list_elem_of_fmap in Hx as (r & Hr & [_ Hin]%elem_of_group_rows).
  assert (Some x ∈ order_approved_at <$> df) as Hdf
    by (rewrite Hr; by apply list_elem_of_fmap_2).
  destruct (max_skipna (order_approved_at <$> df)) as [now|] eqn:Hmax.
  - exists now. split; [done|].
    apply max_skipna_Some in Hmax as [_ Hle]. by apply Hle.
  - by apply max_skipna_None with (x := x) in Hmax.
Qed.

(** In a filtered table every listed customer has a latest stamp. *)
Lemma latest_stamp_main_df all_df start_date end_date c :
  c ∈ group_keys customer_id (main_df all_df start_date end_date) →
  is_Some (latest_stamp c (main_df all_df start_date end_date)).
Proof.
  intros (r & Hr & Hc)%elem_of_group_keys.
  destruct (elem_of_main_df all_df start_date end_date r) as [Hin _].
  destruct (Hin Hr) as (_ & t & Ht & _).
  unfold latest_stamp.
  destruct (max_skipna (order_approved_at <$> group_rows customer_id c
                          (main_df all_df start_date end_date))) eqn:Hmax;
    [by eexists|].
  apply max_skipna_None with (x := t) in Hmax. destruct Hmax.
  rewrite <-Ht. apply list_elem_of_fmap_2, elem_of_group_rows. done.
Qed.

Lemma elem_of_create_rfm_df df row :
  row ∈ create_rfm_df df →
  rfm_customer_id row ∈ group_keys customer_id df
  ∧ recency row =
      match max_skipna (approved_day <$> df),
            date_of <$> latest_stamp (rfm_customer_id row) df with
      | Some today, Some x => Some (today - x)
      | _, _ => None
      end.
Proof.
  unfold create_rfm_df. by intros (c & -> & Hc)%list_elem_of_fmap.
Qed.

Lemma elem_of_rfm_section all_df row :
  row ∈ rfm_section all_df →
  rfm_customer_id row ∈ group_keys customer_id all_df
  ∧ recency row =
      match max_skipna (order_approved_at <$> all_df),
            latest_stamp (rfm_customer_id row) all_df with
      | Some now, Some x => Some (timedelta_days (now - x))
      | _, _ => None
      end.
Proof.
  unfold rfm_section. by intros (c & -> & Hc)%list_elem_of_fmap.
Qed.

(** Recency in the two tables.  [create_rfm_df] on the filtered table
    subtracts calendar dates: recency is a non-negative integer and is 0
    exactly for the customers whose latest order date is the reference
    date.  The RFM section counts whole elapsed days between stamps: for a
    customer with an approved order, recency is a non-negative integer, is
    0 exactly when the latest order is less than a day older than the
    latest stamp of the table, and so is 0 for every customer whose latest
    order date is the reference date. *)
Lemma recency_by_table all_df start_date end_date :
  (∀ row, row ∈ create_rfm_df (main_df all_df start_date end_date) →
     ∃ n x today,
       recency row = Some n
       ∧ latest_stamp (rfm_customer_id row)
           (main_df all_df start_date end_date) = Some x
       ∧ max_skipna (order_approved_at <$> main_df all_df start_date end_date)
           = Some today
       ∧ 0 ≤ n
       ∧ (n = 0 ↔ date_of x = date_of today))
  ∧ (∀ row x, row ∈ rfm_section all_df →
       latest_stamp (rfm_customer_id row) all_df = Some x →
       ∃ n now,
         recency row = Some n
         ∧ max_skipna (order_approved_at <$> all_df) = Some now
         ∧ 0 ≤ n
         ∧ (n = 0 ↔ now - x < ns_per_day)
         ∧ (date_of x = date_of now → n = 0)).
Proof.
  split.
  - intros row [Hc Hrec]%elem_of_create_rfm_df.
    destruct (latest_stamp_main_df _ _ _ _ Hc) as [x Hx].
    destruct (latest_stamp_bound _ _ _ Hx) as (today & Htoday & Hle).
    rewrite recent_date_of_stamp, Htoday, Hx in Hrec. simpl in Hrec.
    exists (date_of today - date_of x), x, today.
    pose proof (date_of_mono _ _ Hle). split_and!; [done..|lia|lia].
  - intros row x [Hc Hrec]%elem_of_rfm_section Hx.
    destruct (latest_stamp_bound _ _ _ Hx) as (now & Hnow & Hle).
    rewrite Hnow, Hx in Hrec.
    exists (timedelta_days (now - x)), now. split_and!; [done..| | |].
    + by apply timedelta_days_nonneg.
    + by apply timedelta_days_zero.
    + intros Hday. apply timedelta_days_zero; [done|].
      by apply same_day_close.
Qed.

(** C4 (recency).  On the table the RFM section reads, customer A's
    latest order is on 2023-01-09, the reference date is 2023-01-10, and A
    has recency 0; [create_rfm_df] on the same rows gives A recency 1.  A
    customer whose only order was never approved has no recency there at
    all. *)
Theorem C4_rfm_section_recency :
  let table := rfm_df (dashboard (stable_sort_values quantity) late_evening
                         (jan 1) (jan 31)) in
  (λ row, (rfm_customer_id row, recency row)) <$> table
    = [("A", Some 0); ("B", Some 0)]
  ∧ (λ row, (rfm_customer_id row, recency row))
      <$> create_rfm_df (main_df late_evening (jan 1) (jan 31))
    = [("A", Some 1); ("B", Some 0)]
  ∧ date_of <$> latest_stamp "A" late_evening = Some (jan 9)
  ∧ date_of <$> max_skipna (order_approved_at <$> late_evening) = Some (jan 10)
  ∧ ¬ (∀ row, row ∈ table → recency row = Some 0 →
         date_of <$> latest_stamp (rfm_customer_id row) late_evening
           = date_of <$> max_skipna (order_approved_at <$> late_evening))
  ∧ (λ row, (rfm_customer_id row, recency row)) <$> rfm_section never_approved
    = [("A", Some 0); ("C", None)].
Proof.
  split_and!; [by vm_compute..| |by vm_compute].
  intros Hall.
  assert (date_of <$> latest_stamp "A" late_evening
            = date_of <$> max_skipna (order_approved_at <$> late_evening)) as Heq.
  { apply (Hall {| rfm_customer_id := "A"; recency := Some 0;
                   frequency := 1; monetary := (10 + 0)%Q |}); [|done].
    vm_compute. apply list_elem_of_here. }
  by vm_compute in Heq.
Qed.

(** ** Sorting *)

Section insertion_sort.
Context {A : Type} (key : A → Z).

Lemma insert_by_perm x l : insert_by key x l ≡ₚ x :: l.
Proof.
  induction l as [|y l IH]; simpl; [done|].
  case_decide; [done|]. by rewrite IH, Permutation_swap.
Qed.

Lemma insertion_sort_perm l : insertion_sort key l ≡ₚ l.
Proof.
  induction l as [|x l IH]; simpl; [done|]. by rewrite insert_by_perm, IH.
Qed.

Lemma insert_by_hd a x l :
  key a ≤ key x → HdRel (λ a b, key a ≤ key b) a l →
  HdRel (λ a b, key a ≤ key b) a (insert_by key x l).
Proof.
  intros Hax Hl. destruct l as [|y l]; simpl; [by constructor|].
  case_decide; constructor; [done|]. by inversion Hl.
Qed.

Lemma insert_by_sorted x l :
  Sorted (λ a b, key a ≤ key b) l →
  Sorted (λ a b, key a ≤ key b) (insert_by key x l).
Proof.
  induction 1 as [|y l Hl IH Hy]; simpl; [by repeat constructor|].
  case_decide.
  - constructor; [by constructor|by constructor].
  - constructor; [done|]. apply insert_by_hd; [lia|done].
Qed.

Lemma insertion_sort_sorted l :
  Sorted (λ a b, key a ≤ key b) (insertion_sort key l).
Proof.
  induction l as [|x l IH]; simpl; [constructor|by apply insert_by_sorted].
Qed.

(** Insertion sort with pandas' reversal trick is a sorting routine. *)
Lemma stable_sort_values_spec : sort_values_spec key (stable_sort_values key).
Proof.
  split.
  - intros [] l; simpl; [apply insertion_sort_perm|].
    by rewrite reverse_Permutation, insertion_sort_perm, reverse_Permutation.
  - intros l. apply insertion_sort_sorted.
  - intros l. simpl.
    apply (Sorted_reverse (λ a b, key a ≤ key b)), insertion_sort_sorted.
Qed.

(** Ascending and without equal keys is strictly ascending. *)
Lemma sorted_strict l :
  Sorted (λ a b, key a ≤ key b) l → NoDup (key <$> l) →
  StronglySorted (λ a b, key a < key b) l.
Proof.
  intros Hl%Sorted_StronglySorted; [|intros ???; lia].
  induction Hl as [|x l Hl IH Hx]; [constructor|].
  rewrite fmap_cons, NoDup_cons. intros [Hnotin Hnodup].
  constructor; [by apply IH|].
  rewrite Forall_forall in Hx |- *. intros y Hy.
  pose proof (Hx y Hy). destruct (decide (key x = key y)) as [Heq|]; [|lia].
  destruct Hnotin. rewrite Heq. by apply list_elem_of_fmap_2.
Qed.

(** Without equal keys there is one ascending arrangement: sorting
    ascending undoes a descending sort by reversing it. *)
Lemma ascending_of_descending sort_values l :
  sort_values_spec key sort_values → NoDup (key <$> l) →
  sort_values true (sort_values false l) = reverse (sort_values false l).
Proof.
  intros [Hperm Hasc Hdesc] Hnodup.
  apply (StronglySorted_unique_strong (λ a b, key a < key b)).
  - intros; lia.
  - apply sorted_strict; [apply Hasc|]. by rewrite !Hperm.
  - apply sorted_strict.
    + apply (Sorted_reverse (λ a b, key b ≤ key a)), Hdesc.
    + by rewrite reverse_Permutation, Hperm.
  - by rewrite Hperm, reverse_Permutation.
Qed.
End insertion_sort.

(** In a sorted list, earlier entries are related to later ones. *)
Lemma sorted_lookup {A} (R : relation A) (l : list A) i j x y :
  Reflexive R → Transitive R → Sorted R l →
  l !! i = Some x → l !! j = Some y → (i ≤ j)%nat → R x y.
Proof.
  intros Hrefl Htrans Hl%Sorted_StronglySorted; [|done].
  revert i j. induction Hl as [|z l Hl IH Hz]; intros i j Hi Hj Hij; [done|].
  destruct i as [|i], j as [|j]; simpl in *; [|  |lia|].
  - by simplify_eq.
  - simplify_eq. rewrite Forall_forall in Hz.
    by apply Hz, list_elem_of_lookup_2 with j.
  - apply (IH i j); [done..|lia].
Qed.

(** Rows of a table with a duplicate-free column are told apart by it. *)
Lemma NoDup_fmap_inj_on {A B} (f : A → B) (l : list A) x y :
  NoDup (f <$> l) → x ∈ l → y ∈ l → f x = f y → x = y.
Proof.
  intros Hnodup [i Hi]%list_elem_of_lookup [j Hj]%list_elem_of_lookup Hf.
  assert (i = j) as ->; [|congruence].
  apply (NoDup_lookup (f <$> l) i j (f x) Hnodup).
  - by rewrite list_lookup_fmap, Hi.
  - by rewrite list_lookup_fmap, Hj, Hf.
Qed.

(** The first five and the last five of ten or more distinct items have
    nothing in common. *)
Lemma take_reverse_disjoint {A} (l : list A) x :
  NoDup l → (10 ≤ length l)%nat → x ∈ take 5 l → x ∉ take 5 (reverse l).
Proof.
  intros Hnodup Hlen (i & Hi & ?)%elem_of_take (j & Hj & ?)%elem_of_take.
  apply reverse_lookup_Some in Hj as [Hj ?].
  pose proof (NoDup_lookup _ _ _ _ Hnodup Hi Hj). lia.
Qed.

(** ** Product ranking *)

Lemma product_sum_order_item_id df :
  product <$> sum_order_item_id df = group_keys name_product df.
Proof.
  unfold sum_order_item_id. rewrite <-list_fmap_compose. apply list_fmap_id.
Qed.

Lemma elem_of_sum_order_item_id df row :
  row ∈ sum_order_item_id df ↔
    product row ∈ group_keys name_product df
    ∧ quantity row
        = sum_int (order_item_id <$> group_rows name_product (product row) df).
Proof.
  unfold sum_order_item_id. rewrite list_elem_of_fmap. split.
  - by intros (p & -> & Hp).
  - intros [Hp Hq]. exists (product row). split; [|done].
    destruct row as [p q]. simpl in *. by rewrite Hq.
Qed.

Section ranking.
Context (sort_values : SortValues ProductQuantity).
Hypothesis sorts : sort_values_spec quantity sort_values.

Lemma create_sum_order_items_df_perm df :
  create_sum_order_items_df sort_values df ≡ₚ sum_order_item_id df.
Proof. apply sorts. Qed.

Lemma ranking_products_NoDup df :
  NoDup (product <$> create_sum_order_items_df sort_values df).
Proof.
  rewrite create_sum_order_items_df_perm, product_sum_order_item_id.
  apply NoDup_group_keys.
Qed.

Lemma ranking_length df :
  length (create_sum_order_items_df sort_values df)
    = nunique (name_product <$> df).
Proof.
  rewrite create_sum_order_items_df_perm. unfold sum_order_item_id.
  by rewrite length_fmap, length_group_keys.
Qed.

Lemma worst_is_tail_of_best df :
  NoDup (quantity <$> sum_order_item_id df) →
  worst_performing sort_values df
    = take 5 (reverse (create_sum_order_items_df sort_values df)).
Proof.
  intros Hties. unfold worst_performing, create_sum_order_items_df.
  by rewrite (ascending_of_descending quantity).
Qed.
End ranking.

(** Without ties the two lists are the two ends of one ranking. *)
Lemma best_worst_disjoint_no_ties sort_values df :
  sort_values_spec quantity sort_values →
  (10 ≤ nunique (name_product <$> df))%nat →
  NoDup (quantity <$> sum_order_item_id df) →
  ∀ p, p ∈ product <$> best_performing sort_values df →
       p ∉ product <$> worst_performing sort_values df.
Proof.
  intros Hsorts Hten Hties p.
  rewrite worst_is_tail_of_best by done. unfold best_performing.
  rewrite !fmap_take, fmap_reverse. apply take_reverse_disjoint.
  - by apply ranking_products_NoDup.
  - by rewrite length_fmap, ranking_length.
Qed.

(** C7 (best and worst), as the code has it.  With any sorting routine
    and ten or more product labels, no label is on both lists as soon as
    the fifth quantity of the best list is greater than the fifth quantity
    of the worst list. *)
Theorem C7_best_worst_disjoint sort_values df a b :
  sort_values_spec quantity sort_values →
  (10 ≤ nunique (name_product <$> df))%nat →
  best_performing sort_values df !! 4%nat = Some a →
  worst_performing sort_values df !! 4%nat = Some b →
  quantity b < quantity a →
  ∀ p, p ∈ product <$> best_performing sort_values df →
       p ∉ product <$> worst_performing sort_values df.
Proof.
  intros Hsorts _ Ha Hb Hlt p.
  unfold best_performing, worst_performing in *.
  set (ranking := create_sum_order_items_df sort_values df) in *.
  rewrite lookup_take_lt in Ha, Hb by lia.
  intros (x & Hpx & (i & Hi & ?)%elem_of_take)%list_elem_of_fmap
         (y & Hpy & (j & Hj & ?)%elem_of_take)%list_elem_of_fmap.
  assert (quantity a ≤ quantity x).
  { apply (sorted_lookup (λ u v, quantity v ≤ quantity u) ranking i 4);
      [by intros ?|intros ???; simpl; lia|apply Hsorts|done..|lia]. }
  assert (quantity y ≤ quantity b).
  { apply (sorted_lookup (λ u v, quantity u ≤ quantity v)
             (sort_values true ranking) j 4);
      [by intros ?|intros ???; simpl; lia|apply Hsorts|done..|lia]. }
  assert (x = y) as ->; [|lia].
  apply (NoDup_fmap_inj_on product ranking).
  - by apply ranking_products_NoDup.
  - by apply list_elem_of_lookup_2 in Hi.
  - apply list_elem_of_lookup_2 in Hj.
    by rewrite <-(sort_values_perm _ _ Hsorts true ranking).
  - congruence.
Qed.

(** Ten labels with quantities 1 to 10: the fifth best has 6, the fifth
    worst has 5, and the best seller is not on the worst list. *)
Lemma C7_best_worst_disjoint_witness :
  "j"%string ∉ product <$> worst_performing (stable_sort_values quantity)
                             ten_ranked_products.
Proof.
  apply (C7_best_worst_disjoint (stable_sort_values quantity)
           ten_ranked_products
           {| product := "f"; quantity := 6 |}
           {| product := "e"; quantity := 5 |}).
  - apply stable_sort_values_spec.
  - vm_compute. lia.
  - reflexivity.
  - reflexivity.
  - simpl. lia.
  - vm_compute. apply list_elem_of_here.
Defined.

(** The claim as written fails when quantities tie.  Ten labels with
    quantity 1 each, sorted by insertion sort: the descending sort leaves
    them in label order, the ascending sort leaves that order alone, and
    both lists are the first five labels. *)
Lemma C7_counterexample :
  let sort_values := stable_sort_values quantity in
  let df := main_df ten_products (jan 1) (jan 2) in
  sort_values_spec quantity sort_values
  ∧ nunique (name_product <$> df) = 10%nat
  ∧ product <$> best_performing sort_values df = ["a"; "b"; "c"; "d"; "e"]
  ∧ product <$> worst_performing sort_values df = ["a"; "b"; "c"; "d"; "e"]
  ∧ ¬ (∀ p, p ∈ product <$> best_performing sort_values df →
            p ∉ product <$> worst_performing sort_values df).
Proof.
  split_and!; [apply stable_sort_values_spec|by vm_compute..|].
  intros Hall. apply (Hall "a"); vm_compute; apply list_elem_of_here.
Qed.

(** ** Quantity is a sum of line numbers *)

Lemma int64_small z : int64_range z → int64 z = z.
Proof.
  intros Hz. unfold int64_range in Hz. unfold int64.
  rewrite Z.mod_small; lia.
Qed.

Lemma int64_add_r a b : int64 (a + int64 b) = int64 (a + b).
Proof.
  unfold int64.
  replace (a + ((b + 9223372036854775808) `mod` 18446744073709551616
                - 9223372036854775808) + 9223372036854775808)
    with (a + (b + 9223372036854775808) `mod` 18446744073709551616) by lia.
  rewrite Zplus_mod_idemp_r. f_equal. f_equal. lia.
Qed.

(** Wrapping at every addition gives the exact sum, wrapped once. *)
Lemma sum_int_wraps xs : sum_int xs = int64 (sum_Z xs).
Proof.
  induction xs as [|x xs IH]; [done|].
  change (sum_int (x :: xs)) with (int64 (x + sum_int xs)).
  change (sum_Z (x :: xs)) with (x + sum_Z xs).
  by rewrite IH, int64_add_r.
Qed.





Lemma group_rows_app {R} `{EqDecision K} (key : R → K) k (df1 df2 : list R) :
  group_rows key k (df1 ++ df2) = group_rows key k df1 ++ group_rows key k df2.
Proof. apply filter_app. Qed.

Lemma group_rows_all {R} `{EqDecision K} (key : R → K) k (df : list R) :
  Forall (λ r, key r = k) df → group_rows key k df = df.
Proof.
  unfold group_rows. induction 1 as [|r df Hr _ IH]; [done|].
  by rewrite filter_cons, decide_True, IH.
Qed.

Lemma quantity_wraps df row :
  row ∈ sum_order_item_id df →
  quantity row
    = int64 (sum_Z (order_item_id <$>
                      filter (λ r, name_product r = product row) df)).
Proof.
  intros [_ ->]%elem_of_sum_order_item_id. apply sum_int_wraps.
Qed.




(** ** Geographic bucketing *)

Lemma index_of_None s us : index_of s us = None ↔ s ∉ us.
Proof.
  induction us as [|u us IH]; simpl.
  - split; [intros _; apply not_elem_of_nil|done].
  - rewrite not_elem_of_cons. case_decide as Hu.
    + split; [done|]. by intros [? _].
    + rewrite fmap_None, IH. split; [by split; [congruence|]|by intros [_ ?]].
Qed.

Lemma index_of_app_l s us vs k :
  index_of s us = Some k → index_of s (us ++ vs) = Some k.
Proof.
  revert k. induction us as [|u us IH]; intros k; simpl; [done|].
  case_decide; [done|].
  destruct (index_of s us) as [k'|]; [|done].
  intros [= <-]. by rewrite (IH k').
Qed.

Lemma index_of_app_r s us vs :
  index_of s us = None →
  index_of s (us ++ vs) = (λ k, length us + k)%nat <$> index_of s vs.
Proof.
  induction us as [|u us IH]; simpl.
  - intros _. by destruct (index_of s vs).
  - case_decide; [done|].
    destruct (index_of s us); [done|]. intros _. rewrite IH by done.
    by destruct (index_of s vs).
Qed.

Lemma index_of_here s us : index_of s (s :: us) = Some 0%nat.
Proof. simpl. by rewrite decide_True. Qed.

Lemma filter_not_in_nil (l : list string) : filter (λ u, u ∉ []) l = l.
Proof.
  induction l as [|x l IH]; [done|].
  rewrite filter_cons, decide_True, IH; [done|apply not_elem_of_nil].
Qed.

Lemma numbering_seen uniques s rest :
  s ∈ uniques → numbering uniques (Some s :: rest) = numbering uniques rest.
Proof.
  intros Hs. unfold numbering. simpl. f_equal.
  rewrite filter_cons, decide_False by (by intros []).
  apply list_filter_filter_l. intros u Hu ->. done.
Qed.

Lemma numbering_new uniques s rest :
  numbering uniques (Some s :: rest)
    = uniques ++ s :: filter (λ u, u ∉ uniques ++ [s]) (first_seen rest)
  ∨ s ∈ uniques.
Proof.
  destruct (decide (s ∈ uniques)) as [|Hs]; [by right|left].
  unfold numbering. simpl. f_equal.
  rewrite filter_cons, decide_True by done. f_equal.
  rewrite list_filter_filter. apply list_filter_iff. intros u.
  rewrite not_elem_of_app, not_elem_of_cons. split.
  - intros [? ?]. split_and!; [done..|apply not_elem_of_nil].
  - intros [? [? _]]. done.
Qed.

Lemma factorize_from_present column : ∀ uniques i s,
  column !! i = Some (Some s) →
  ∃ k, index_of s (numbering uniques column) = Some k
       ∧ factorize_from uniques column !! i = Some (Z.of_nat k).
Proof.
  induction column as [|[t|] rest IH]; intros uniques i s Hi; [done| |].
  - simpl. destruct (index_of t uniques) as [j|] eqn:Hj.
    + assert (t ∈ uniques) as Ht.
      { destruct (decide (t ∈ uniques)) as [|Hn]; [done|].
        apply index_of_None in Hn. congruence. }
      rewrite numbering_seen by done.
      destruct i as [|i]; simpl in *; [|by apply IH].
      injection Hi as <-. exists j. split; [|done].
      by apply index_of_app_l.
    + pose proof (proj1 (index_of_None _ _) Hj) as Ht.
      destruct (numbering_new uniques t rest) as [->|]; [|done].
      destruct i as [|i]; simpl in *.
      * injection Hi as <-. exists (length uniques). split; [|done].
        rewrite index_of_app_r, index_of_here by done. simpl.
        f_equal. lia.
      * destruct (IH (uniques ++ [t]) i s Hi) as (k & Hk & Hcode).
        exists k. split; [|done].
        unfold numbering in Hk. by rewrite <-(assoc_L (++)) in Hk.
  - destruct i as [|i]; [done|]. simpl in *. by apply IH.
Qed.

Lemma factorize_from_missing column : ∀ uniques i,
  column !! i = Some None → factorize_from uniques column !! i = Some (-1).
Proof.
  induction column as [|[t|] rest IH]; intros uniques i Hi; [done| |].
  - destruct i as [|i]; [done|]. simpl in *.
    destruct (index_of t uniques); simpl; by apply IH.
  - destruct i as [|i]; [done|]. simpl in *. by apply IH.
Qed.

Lemma factorize_present column i s :
  column !! i = Some (Some s) →
  ∃ k, enumeration_index s column = Some k
       ∧ factorize column !! i = Some (Z.of_nat k).
Proof.
  intros Hi. destruct (factorize_from_present column [] i s Hi) as (k & Hk & ?).
  exists k. split; [|done].
  unfold numbering in Hk. simpl in Hk. by rewrite filter_not_in_nil in Hk.
Qed.

Lemma factorize_same column i j o :
  column !! i = Some o → column !! j = Some o →
  factorize column !! i = factorize column !! j.
Proof.
  intros Hi Hj. destruct o as [s|].
  - destruct (factorize_present column i s Hi) as (k & Hk & ->).
    destruct (factorize_present column j s Hj) as (k' & Hk' & ->).
    congruence.
  - unfold factorize. by rewrite !factorize_from_missing.
Qed.

(** Codes and colour groups of a small column: SP, RJ, SP again, a
    missing state, MG. *)
Example geo_sample_groups :
  factorize (geo_customer_state <$> geo_sample) = [0; 1; 0; -1; 2]
  ∧ color_group geo_sample = [0; 1; 0; 7; 2]
  ∧ first_seen (geo_customer_state <$> geo_sample) = ["SP"; "RJ"; "MG"]%string.
Proof. by vm_compute. Qed.

(** [first_seen] lists every state of the column, once. *)
Lemma elem_of_first_seen column s : s ∈ first_seen column ↔ Some s ∈ column.
Proof.
  induction column as [|[t|] rest IH]; simpl.
  - by rewrite !elem_of_nil.
  - rewrite !elem_of_cons, list_elem_of_filter, IH.
    split.
    + intros [->|[_ ?]]; auto.
    + intros [[= ->]|?]; [by left|].
      destruct (decide (s = t)); [by left|by right].
  - rewrite elem_of_cons, IH. split; [auto|]. by intros [?|?].
Qed.

Lemma NoDup_first_seen column : NoDup (first_seen column).
Proof.
  induction column as [|[t|] rest IH]; simpl; [constructor| |done].
  constructor; [|by apply NoDup_filter].
  rewrite list_elem_of_filter. by intros [? _].
Qed.

Lemma first_seen_app before after :
  first_seen (before ++ after)
    = first_seen before
        ++ filter (λ u, u ∉ first_seen before) (first_seen after).
Proof.
  induction before as [|[t|] before IH]; simpl; [|  |done].
  - by rewrite filter_not_in_nil.
  - rewrite IH, filter_app, list_filter_filter. f_equal. f_equal.
    apply list_filter_iff. intros u.
    rewrite not_elem_of_cons, list_elem_of_filter. split.
    + intros [? ?]. split; [done|]. by intros [_ ?].
    + intros [? Hu]. split; [done|]. intros ?. by apply Hu.
Qed.

(** A state met for the first time gets the next free index: the number of
    distinct states before it. *)
Lemma enumeration_index_first before s after :
  Some s ∉ before →
  enumeration_index s (before ++ Some s :: after)
    = Some (length (first_seen before)).
Proof.
  intros Hnew. rewrite <-elem_of_first_seen in Hnew.
  unfold enumeration_index. rewrite first_seen_app. simpl.
  rewrite filter_cons, decide_True by done.
  rewrite index_of_app_r by by apply index_of_None.
  rewrite index_of_here. simpl. f_equal. lia.
Qed.

(** C8 (colour groups).  A row with a state gets that state's first-seen
    enumeration index modulo the eight colours, where a state met for the
    first time is numbered with the count of distinct states before it;
    rows with equal states get equal groups; the groups are read off the
    state column alone, so the same column always gives the same groups. *)
Theorem C8_color_group geo_df :
  length colors = 8%nat
  ∧ (∀ i g s, geo_df !! i = Some g → geo_customer_state g = Some s →
       ∃ k, enumeration_index s (geo_customer_state <$> geo_df) = Some k
            ∧ color_group geo_df !! i = Some (Z.of_nat k `mod` 8))
  ∧ (∀ before s after,
       geo_customer_state <$> geo_df = before ++ Some s :: after →
       Some s ∉ before →
       enumeration_index s (geo_customer_state <$> geo_df)
         = Some (length (first_seen before)))
  ∧ (∀ i j gi gj, geo_df !! i = Some gi → geo_df !! j = Some gj →
       geo_customer_state gi = geo_customer_state gj →
       color_group geo_df !! i = color_group geo_df !! j)
  ∧ (∀ geo_df', geo_customer_state <$> geo_df' = geo_customer_state <$> geo_df →
       color_group geo_df' = color_group geo_df).
Proof.
  split_and!; [done| | | |].
  - intros i g s Hi Hs.
    destruct (factorize_present (geo_customer_state <$> geo_df) i s)
      as (k & Hk & Hcode).
    { by rewrite list_lookup_fmap, Hi, <-Hs. }
    exists k. split; [done|].
    unfold color_group. by rewrite list_lookup_fmap, Hcode.
  - intros before s after -> Hnew. by apply enumeration_index_first.
  - intros i j gi gj Hi Hj Hsame. unfold color_group.
    rewrite !list_lookup_fmap. f_equal.
    apply (factorize_same _ _ _ (geo_customer_state gi)).
    + by rewrite list_lookup_fmap, Hi.
    + by rewrite list_lookup_fmap, Hj, Hsame.
  - intros geo_df' Hcol. unfold color_group. by rewrite Hcol.
Qed.

(** ** Brazil outline *)

Section brazil.
Context {Frame : Type} (naturalearth geo_countries : Script Frame).

Lemma brazil_outline_bundled w world w1 :
  naturalearth w = (Returned world, w1) →
  brazil_outline naturalearth geo_countries w = (Returned (FromDataset world), w1).
Proof.
  intros H1. unfold brazil_outline, try_except, mbind, script_bind, mret,
    script_ret. by rewrite H1.
Qed.

Lemma brazil_outline_downloaded w e1 w1 countries w2 :
  naturalearth w = (Raised e1, w1) →
  geo_countries w1 = (Returned countries, w2) →
  brazil_outline naturalearth geo_countries w
    = (Returned (FromDataset countries), w2).
Proof.
  intros H1 H2. unfold brazil_outline, try_except, mbind, script_bind, mret,
    script_ret. by rewrite H1, H2.
Qed.

Lemma brazil_outline_fallback w e1 w1 e2 w2 :
  naturalearth w = (Raised e1, w1) →
  geo_countries w1 = (Raised e2, w2) →
  brazil_outline naturalearth geo_countries w
    = (Returned approximate_brazil,
       w2 ++ ["Couldn't download Brazil map, using approximate boundaries"]).
Proof.
  intros H1 H2. unfold brazil_outline, try_except, mbind, script_bind, mret,
    script_ret, st_warning. by rewrite H1, H2.
Qed.
End brazil.

(** C9 (Brazil outline).  Whatever the two dataset tiers do, the lookup
    returns an outline and raises nothing: the bundled dataset's if that
    tier returns, else the downloaded one's if that tier returns, else the
    bounding box, after one warning. *)
Theorem C9_brazil_outline_total {Frame} (naturalearth geo_countries : Script Frame) w :
  ∃ outline w',
    brazil_outline naturalearth geo_countries w = (Returned outline, w')
    ∧ match naturalearth w with
      | (Returned world, w1) => outline = FromDataset world ∧ w' = w1
      | (Raised _, w1) =>
          match geo_countries w1 with
          | (Returned countries, w2) =>
              outline = FromDataset countries ∧ w' = w2
          | (Raised _, w2) =>
              outline = approximate_brazil
              ∧ w' = w2 ++ ["Couldn't download Brazil map, using approximate boundaries"]
          end
      end.
Proof.
  destruct (naturalearth w) as [[world|e1] w1] eqn:H1.
  - eexists _, _. split; [by apply brazil_outline_bundled|done].
  - destruct (geo_countries w1) as [[countries|e2] w2] eqn:H2.
    + eexists _, _. split; [by eapply brazil_outline_downloaded|done].
    + eexists _, _. split; [by eapply brazil_outline_fallback|done].
Qed.

(** * Further properties *)

(** ** Partition into groups *)

Lemma filter_all {A} (P : A → Prop) `{∀ x, Decision (P x)} (l : list A) :
  Forall P l → filter P l = l.
Proof.
  induction 1 as [|x l Hx _ IH]; [done|].
  by rewrite filter_cons, decide_True, IH.
Qed.

Section partition.
Context {R : Type} `{EqDecision K} (key : R → K).

Lemma filter_in_cons k ks (l : list R) :
  k ∉ ks →
  filter (λ r, key r ∈ k :: ks) l
    ≡ₚ group_rows key k l ++ filter (λ r, key r ∈ ks) l.
Proof.
  intros Hk. unfold group_rows. induction l as [|r l IH]; [done|].
  rewrite !filter_cons.
  destruct (decide (key r = k)) as [Hr|Hr].
  - rewrite decide_True by (rewrite Hr; apply list_elem_of_here).
    rewrite decide_False by (by rewrite Hr). simpl. by rewrite IH.
  - destruct (decide (key r ∈ ks)) as [Hin|Hin].
    + rewrite decide_True by by apply list_elem_of_further.
      by rewrite IH, Permutation_middle.
    + rewrite decide_False; [done|].
      by intros [?|?]%elem_of_cons.
Qed.

(** The groups of distinct keys are the rows with one of these keys, each
    once. *)
Lemma concat_groups ks (l : list R) :
  NoDup ks →
  concat ((λ k, group_rows key k l) <$> ks) ≡ₚ filter (λ r, key r ∈ ks) l.
Proof.
  induction 1 as [|k ks Hk _ IH]; simpl.
  - induction l as [|r l IHl]; [done|].
    rewrite filter_cons, decide_False; [done|]. apply not_elem_of_nil.
  - by rewrite IH, filter_in_cons.
Qed.

Lemma concat_groups_all ks (l : list R) :
  NoDup ks → (∀ r, r ∈ l → key r ∈ ks) →
  concat ((λ k, group_rows key k l) <$> ks) ≡ₚ l.
Proof.
  intros Hks Hall. rewrite concat_groups by done.
  rewrite filter_all; [done|]. by apply Forall_forall.
Qed.

Lemma sum_group_lengths ks (l : list R) :
  NoDup ks → (∀ r, r ∈ l → key r ∈ ks) →
  sum_list ((λ k, length (group_rows key k l)) <$> ks) = length l.
Proof.
  intros Hks Hall.
  trans (length (concat ((λ k, group_rows key k l) <$> ks))).
  - clear. induction ks as [|k ks IH]; simpl; [done|].
    rewrite length_app. f_equal. apply IH.
  - by rewrite concat_groups_all.
Qed.
End partition.

Lemma nunique_le_length `{EqDecision A} (xs : list A) :
  (nunique xs ≤ length xs)%nat.
Proof.
  unfold nunique. induction xs as [|x xs IH]; simpl; [done|].
  case_decide; simpl; lia.
Qed.

Lemma sum_list_fmap_le {A} (f g : A → nat) (l : list A) :
  (∀ x, x ∈ l → (f x ≤ g x)%nat) →
  (sum_list (f <$> l) ≤ sum_list (g <$> l))%nat.
Proof.
  induction l as [|x l IH]; intros Hle; csimpl; [done|].
  pose proof (Hle x (list_elem_of_here _ _)).
  assert (sum_list (f <$> l) ≤ sum_list (g <$> l))%nat.
  { apply IH. intros y Hy. by apply Hle, list_elem_of_further. }
  lia.
Qed.

(** Distinct values of the whole table are at most the per-group distinct
    values added up. *)
Section grouped_bounds.
Context {R : Type} `{Countable K} `{Countable V}.
Context (key : R → K) (val : R → V) (df : list R).

Lemma nunique_filter_le_sum (ks : list K) :
  (nunique (val <$> filter (λ r, key r ∈ ks) df)
     ≤ sum_list ((λ k, nunique (val <$> group_rows key k df)) <$> ks))%nat.
Proof.
  rewrite nunique_size. induction ks as [|k ks IH]; csimpl.
  - replace (filter (λ r, key r ∈ []) df) with (@nil R); [done|].
    induction df as [|r l IHl]; [done|].
    rewrite filter_cons, decide_False; [done|]. apply not_elem_of_nil.
  - rewrite (values_in_cons key val df k ks), size_union_alt.
    rewrite (nunique_size (val <$> group_rows key k df)).
    set (here := list_to_set (C:=gset V) (val <$> group_rows key k df)) in *.
    set (rest := list_to_set (C:=gset V)
                   (val <$> filter (λ r, key r ∈ ks) df)) in *.
    assert (size (rest ∖ here) ≤ size rest)%nat
      by (apply subseteq_size; by intros v [? _]%elem_of_difference).
    lia.
Qed.

Lemma nunique_le_sum_groups (ks : list K) :
  (∀ r, r ∈ df → key r ∈ ks) →
  (nunique (val <$> df)
     ≤ sum_list ((λ k, nunique (val <$> group_rows key k df)) <$> ks))%nat.
Proof.
  intros Hall. rewrite <-(filter_all (λ r, key r ∈ ks) df) at 1.
  - apply nunique_filter_le_sum.
  - by apply Forall_forall.
Qed.
End grouped_bounds.

(** ** More on the date-range filter *)

(** X1.  Filtering a filtered table is filtering once with the later start
    and the earlier end. *)
Theorem main_df_compose all_df start1 end1 start2 end2 :
  main_df (main_df all_df start1 end1) start2 end2
    = main_df all_df (Z.max start1 start2) (Z.min end1 end2).
Proof.
  unfold main_df. rewrite list_filter_filter. apply list_filter_iff.
  intros r. unfold approved_between, to_datetime, ns_per_day.
  destruct (order_approved_at r) as [t|]; [lia|tauto].
Qed.

Lemma main_df_inverted all_df start_date end_date :
  end_date < start_date → main_df all_df start_date end_date = [].
Proof.
  intros Hlt. apply elem_of_nil_inv. intros r.
  rewrite elem_of_main_df. unfold to_datetime, ns_per_day.
  intros (_ & t & _ & ?). lia.
Qed.

Lemma sort_values_nil {A} (key : A → Z) sort_values ascending :
  sort_values_spec key sort_values → sort_values ascending [] = [].
Proof.
  intros Hs. apply Permutation_nil_r.
  apply (sort_values_perm _ _ Hs ascending []).
Qed.

(** X2.  With the end date before the start date nothing passes the
    filter, and every view made from the filtered table is empty: no daily
    rows, zero total orders, no products, no states, no customers. *)
Theorem dashboard_inverted_range sort_values all_df start_date end_date :
  sort_values_spec quantity sort_values →
  end_date < start_date →
  main_df all_df start_date end_date = []
  ∧ daily_orders_df (dashboard sort_values all_df start_date end_date) = []
  ∧ metric_total_orders (dashboard sort_values all_df start_date end_date)
      = 0%nat
  ∧ best_plot (dashboard sort_values all_df start_date end_date) = []
  ∧ worst_plot (dashboard sort_values all_df start_date end_date) = []
  ∧ bystate_df (dashboard sort_values all_df start_date end_date) = []
  ∧ rfm_df_line_85 (dashboard sort_values all_df start_date end_date) = [].
Proof.
  intros Hs Hlt. simpl. rewrite main_df_inverted by done.
  unfold best_performing, worst_performing, create_sum_order_items_df.
  change (sum_order_item_id []) with (@nil ProductQuantity).
  rewrite !(sort_values_nil quantity) by done.
  split_and!; done.
Qed.

(** An inverted range on the scenario table. *)
Lemma dashboard_inverted_range_witness :
  main_df scenario (jan 2) (jan 1) = []
  ∧ daily_orders_df (dashboard (stable_sort_values quantity) scenario
                       (jan 2) (jan 1)) = []
  ∧ metric_total_orders (dashboard (stable_sort_values quantity) scenario
                           (jan 2) (jan 1)) = 0%nat
  ∧ best_plot (dashboard (stable_sort_values quantity) scenario
                 (jan 2) (jan 1)) = []
  ∧ worst_plot (dashboard (stable_sort_values quantity) scenario
                  (jan 2) (jan 1)) = []
  ∧ bystate_df (dashboard (stable_sort_values quantity) scenario
                  (jan 2) (jan 1)) = []
  ∧ rfm_df_line_85 (dashboard (stable_sort_values quantity) scenario
                      (jan 2) (jan 1)) = [].
Proof.
  apply (dashboard_inverted_range (stable_sort_values quantity) scenario
           (jan 2) (jan 1)).
  - apply stable_sort_values_spec.
  - reflexivity.
Defined.

(** X3.  Every day of the rollup of a filtered table lies in the selected
    range. *)
Theorem daily_days_in_range all_df start_date end_date :
  Forall (λ row, start_date ≤ day row ≤ end_date)
    (create_daily_orders_df (main_df all_df start_date end_date)).
Proof.
  apply Forall_forall. intros row Hrow.
  assert (day row ∈ day <$> create_daily_orders_df
                              (main_df all_df start_date end_date)) as Hday
    by by apply list_elem_of_fmap_2.
  apply elem_of_daily_days in Hday as (d1 & d2 & Hd1 & Hd2 & ?).
  assert (∀ d, Some d ∈ approved_day <$> main_df all_df start_date end_date →
               start_date ≤ d ≤ end_date) as Hin.
  { intros d (r & Hd & Hr)%list_elem_of_fmap.
    apply main_df_dates in Hr as (_ & t & Ht & ? & Hend).
    unfold approved_day in Hd. rewrite Ht in Hd. simpl in Hd.
    injection Hd as ->. split; [done|].
    destruct Hend as [?| ->]; [lia|].
    unfold date_of, to_datetime. rewrite Z.div_mul; [done|].
    pose proof ns_per_day_pos. lia. }
  pose proof (Hin d1 Hd1). pose proof (Hin d2 Hd2). lia.
Qed.

(** X4.  Total Orders is at least the number of distinct orders of the
    filtered table and at most its number of rows. *)
Theorem total_orders_bounds all_df start_date end_date :
  let df := main_df all_df start_date end_date in
  (nunique (order_id <$> df) ≤ total_orders (create_daily_orders_df df)
   ∧ total_orders (create_daily_orders_df df) ≤ length df)%nat.
Proof.
  intros df.
  assert (∀ r, r ∈ df → is_Some (approved_day r)) as Happroved
    by (intros r; apply main_df_approved).
  destruct (min_skipna (approved_day <$> df)) as [lo|] eqn:Hmin.
  - destruct (skipna_bounds (approved_day <$> df)) as (lo' & hi & Hmin' & Hmax).
    { exists lo. by apply min_skipna_Some in Hmin as [? _]. }
    assert (lo' = lo) as -> by congruence. clear Hmin'.
    set (days := Some <$> seqZ lo (hi - lo + 1)).
    assert (NoDup days) as Hnodup
      by (apply NoDup_fmap_2; [apply _|apply NoDup_seqZ]).
    assert (∀ r, r ∈ df → approved_day r ∈ days) as Hcover.
    { intros r Hr. destruct (Happroved r Hr) as [d Hd]. rewrite Hd.
      apply list_elem_of_fmap_2, elem_of_seqZ.
      apply min_skipna_Some in Hmin as [_ Hlo].
      apply max_skipna_Some in Hmax as [_ Hhi].
      assert (Some d ∈ approved_day <$> df) as Hin
        by (rewrite <-Hd; by apply list_elem_of_fmap_2).
      pose proof (Hlo d Hin). pose proof (Hhi d Hin). lia. }
    assert (total_orders (create_daily_orders_df df)
              = sum_list ((λ k, nunique (order_id <$> group_rows approved_day k df))
                            <$> days)) as ->.
    { unfold total_orders, create_daily_orders_df. rewrite Hmin, Hmax.
      unfold days. by rewrite <-!list_fmap_compose. }
    split.
    + by apply nunique_le_sum_groups.
    + rewrite <-(sum_group_lengths approved_day days df Hnodup Hcover).
      apply sum_list_fmap_le. intros k _.
      rewrite <-(length_fmap order_id). apply nunique_le_length.
  - pose proof (proj1 (min_skipna_None _) Hmin) as Hnone.
    assert (df = []) as ->; [|done].
    apply elem_of_nil_inv. intros r Hr.
    destruct (Happroved r Hr) as [d Hd]. apply (Hnone d).
    rewrite <-Hd. by apply list_elem_of_fmap_2.
Qed.

(** ** The ends of the daily rollup *)

Lemma daily_bin_nonzero df d :
  Some d ∈ approved_day <$> df → (1 ≤ order_count (daily_bin df d))%nat.
Proof.
  intros (r & Hd & Hr)%list_elem_of_fmap. simpl.
  destruct (nunique (order_id <$> rows_of_day d df)) eqn:Hcount; [|lia].
  apply nunique_nil_iff, fmap_nil_inv in Hcount.
  pose proof (proj1 (rows_of_day_nil df d) Hcount r Hr). congruence.
Qed.

(** X5.  The first and the last row of the rollup count at least one
    order: days without orders only occur strictly between two days with
    orders. *)
Theorem daily_ends_nonzero df row :
  head (create_daily_orders_df df) = Some row
    ∨ last (create_daily_orders_df df) = Some row →
  (1 ≤ order_count row)%nat.
Proof.
  unfold create_daily_orders_df.
  destruct (min_skipna (approved_day <$> df)) as [lo|] eqn:Hmin;
    [|by intros [?|?]].
  destruct (max_skipna (approved_day <$> df)) as [hi|] eqn:Hmax;
    [|by intros [?|?]].
  apply min_skipna_Some in Hmin as [Hlo Hlo_le].
  apply max_skipna_Some in Hmax as [Hhi Hhi_le].
  pose proof (Hlo_le hi Hhi) as Hle.
  intros [Hrow|Hrow].
  - rewrite seqZ_cons in Hrow by lia. injection Hrow as <-.
    by apply daily_bin_nonzero.
  - rewrite fmap_last, last_lookup, length_seqZ in Hrow.
    rewrite lookup_seqZ_lt in Hrow by lia. injection Hrow as <-.
    replace (lo + Z.of_nat (pred (Z.to_nat (hi - lo + 1)))) with hi by lia.
    by apply daily_bin_nonzero.
Qed.

(** The rollup of orders on 2023-01-01 and 2023-01-03 starts with a day
    that has an order. *)
Lemma daily_ends_nonzero_witness :
  (1 ≤ order_count (daily_bin gap_day (jan 1)))%nat.
Proof.
  apply (daily_ends_nonzero gap_day). left. by vm_compute.
Defined.

(** ** Heads of sorted tables *)

Section heads.
Context {A : Type} (key : A → Z) (sort_values : SortValues A).
Hypothesis sorts : sort_values_spec key sort_values.

(** What [sort_values(ascending=False).head(k)] leaves out is no larger
    than what it keeps. *)
Lemma head_descending k l x y :
  x ∈ take k (sort_values false l) → y ∈ l →
  y ∉ take k (sort_values false l) → key y ≤ key x.
Proof.
  intros (i & Hi & ?)%elem_of_take Hy Hout.
  rewrite <-(sort_values_perm _ _ sorts false l) in Hy.
  rewrite <-(take_drop k (sort_values false l)) in Hy.
  apply elem_of_app in Hy as [?|Hy]; [done|].
  apply list_elem_of_lookup in Hy as [j Hj]. rewrite lookup_drop in Hj.
  apply (sorted_lookup (λ u v, key v ≤ key u) (sort_values false l) i (k + j));
    [by intros ?|intros ???; simpl; lia|apply sorts|done..|lia].
Qed.

(** Likewise for [sort_values(ascending=True).head(k)]. *)
Lemma head_ascending k l x y :
  x ∈ take k (sort_values true l) → y ∈ l →
  y ∉ take k (sort_values true l) → key x ≤ key y.
Proof.
  intros (i & Hi & ?)%elem_of_take Hy Hout.
  rewrite <-(sort_values_perm _ _ sorts true l) in Hy.
  rewrite <-(take_drop k (sort_values true l)) in Hy.
  apply elem_of_app in Hy as [?|Hy]; [done|].
  apply list_elem_of_lookup in Hy as [j Hj]. rewrite lookup_drop in Hj.
  apply (sorted_lookup (λ u v, key u ≤ key v) (sort_values true l) i (k + j));
    [by intros ?|intros ???; simpl; lia|apply sorts|done..|lia].
Qed.

Lemma head_length ascending k l :
  length (take k (sort_values ascending l)) = (k `min` length l)%nat.
Proof.
  by rewrite length_take, (sort_values_perm _ _ sorts ascending l).
Qed.


(** A table of at most [k] rows is shown whole. *)
Lemma head_whole ascending k l :
  (length l ≤ k)%nat → take k (sort_values ascending l) ≡ₚ l.
Proof.
  intros Hlen. rewrite take_ge; [apply sorts|].
  by rewrite (sort_values_perm _ _ sorts ascending l).
Qed.
End heads.

(** ** More on the product charts *)

Lemma NoDup_take {A} (l : list A) k : NoDup l → NoDup (take k l).
Proof.
  intros Hl. rewrite <-(take_drop k l) in Hl. by apply NoDup_app in Hl as [? _].
Qed.

(** X6.  The best chart shows at most five products, one bar each, and no
    product left out sells more than a product shown; the worst chart
    likewise shows products that no product left out sells less than. *)
Theorem ranking_heads sort_values df :
  sort_values_spec quantity sort_values →
  (∀ x y, x ∈ best_performing sort_values df →
          y ∈ create_sum_order_items_df sort_values df →
          y ∉ best_performing sort_values df → quantity y ≤ quantity x)
  ∧ (∀ x y, x ∈ worst_performing sort_values df →
            y ∈ create_sum_order_items_df sort_values df →
            y ∉ worst_performing sort_values df → quantity x ≤ quantity y)
  ∧ length (best_performing sort_values df)
      = (5 `min` nunique (name_product <$> df))%nat
  ∧ length (worst_performing sort_values df)
      = (5 `min` nunique (name_product <$> df))%nat
  ∧ NoDup (product <$> best_performing sort_values df)
  ∧ NoDup (product <$> worst_performing sort_values df).
Proof.
  intros Hs. unfold best_performing, worst_performing. split_and!.
  - intros x y Hx Hy Hout. unfold create_sum_order_items_df in *.
    apply (head_descending quantity sort_values Hs 5 (sum_order_item_id df));
      [done| |done].
    by rewrite <-(sort_values_perm _ _ Hs false).
  - intros x y Hx Hy Hout.
    by apply (head_ascending quantity sort_values Hs 5
                (create_sum_order_items_df sort_values df)).
  - by rewrite length_take, ranking_length.
  - rewrite (head_length quantity) by done. by rewrite ranking_length.
  - rewrite fmap_take. by apply NoDup_take, ranking_products_NoDup.
  - rewrite fmap_take. apply NoDup_take.
    rewrite (sort_values_perm _ _ Hs true). by apply ranking_products_NoDup.
Qed.

(** Ten ranked products under insertion sort. *)
Lemma ranking_heads_witness :
  length (best_performing (stable_sort_values quantity) ten_ranked_products)
    = (5 `min` nunique (name_product <$> ten_ranked_products))%nat.
Proof.
  apply (ranking_heads (stable_sort_values quantity) ten_ranked_products).
  apply stable_sort_values_spec.
Defined.

(** X7.  With five product labels or fewer, both charts show all of them:
    the best and the worst chart have the same products. *)
Theorem few_products_same_charts sort_values df :
  sort_values_spec quantity sort_values →
  (nunique (name_product <$> df) ≤ 5)%nat →
  best_performing sort_values df ≡ₚ sum_order_item_id df
  ∧ worst_performing sort_values df ≡ₚ sum_order_item_id df.
Proof.
  intros Hs Hfew. unfold best_performing, worst_performing. split.
  - rewrite take_ge; [by apply create_sum_order_items_df_perm|].
    by rewrite ranking_length.
  - rewrite (head_whole quantity) by (by rewrite ?ranking_length).
    by apply create_sum_order_items_df_perm.
Qed.

(** The scenario table has two product labels. *)
Lemma few_products_same_charts_witness :
  best_performing (stable_sort_values quantity) scenario
    ≡ₚ sum_order_item_id scenario
  ∧ worst_performing (stable_sort_values quantity) scenario
    ≡ₚ sum_order_item_id scenario.
Proof.
  apply (few_products_same_charts (stable_sort_values quantity) scenario).
  - apply stable_sort_values_spec.
  - vm_compute. lia.
Defined.

Lemma sum_Z_ge_length xs :
  Forall (λ x, 1 ≤ x) xs →
  Z.of_nat (length xs) ≤ sum_Z xs
  ∧ (Z.of_nat (length xs) = sum_Z xs ↔ Forall (λ x, x = 1) xs).
Proof.
  induction 1 as [|x xs Hx _ [IHle IHeq]]; simpl.
  - split; [done|]. split; [constructor|done].
  - split; [lia|]. rewrite Forall_cons. split.
    + intros Heq. split; [lia|]. apply IHeq. lia.
    + intros [-> Hall]. apply IHeq in Hall. lia.
Qed.

Lemma sum_Z_filter_le {A} (f : A → Z) (P : A → Prop)
    `{∀ x, Decision (P x)} (l : list A) :
  Forall (λ x, 0 ≤ f x) l → sum_Z (f <$> filter P l) ≤ sum_Z (f <$> l).
Proof.
  induction 1 as [|x l Hx _ IH]; [done|].
  rewrite filter_cons. case_decide; csimpl; lia.
Qed.

Lemma elem_of_count_order_item_id df p n :
  (p, n) ∈ count_order_item_id df ↔
    p ∈ group_keys name_product df
    ∧ n = length (group_rows name_product p df).
Proof.
  unfold count_order_item_id. rewrite list_elem_of_fmap. split.
  - by intros (p' & [= -> ->] & ?).
  - intros [? ->]. by exists p.
Qed.

(** X8.  When line numbers start at 1 and those of the table add up to
    less than 2^63, the quantity of the best and worst charts (a sum of
    line numbers) is at least the count the product sales chart gives the
    same product on the same table (its number of rows), and the two agree
    only for a product all of whose rows are line 1. *)
Theorem quantity_at_least_count sort_values df :
  sort_values_spec quantity sort_values →
  Forall (λ r, 1 ≤ order_item_id r) df →
  sum_Z (order_item_id <$> df) < 9223372036854775808 →
  ∀ row, row ∈ create_sum_order_items_df sort_values df →
    ∃ n, (product row, n) ∈ count_order_item_id df
         ∧ Z.of_nat n ≤ quantity row
         ∧ (Z.of_nat n = quantity row ↔
              ∀ r, r ∈ df → name_product r = product row →
                   order_item_id r = 1).
Proof.
  intros Hs Hlines Hfits row Hrow.
  rewrite create_sum_order_items_df_perm in Hrow by done.
  pose proof (quantity_wraps df row Hrow) as Hq.
  apply elem_of_sum_order_item_id in Hrow as [Hp _].
  exists (length (group_rows name_product (product row) df)).
  split; [by apply elem_of_count_order_item_id|].
  destruct (sum_Z_ge_length
              (order_item_id <$> group_rows name_product (product row) df))
    as [Hle Heq].
  { apply Forall_fmap, Forall_forall. intros r [_ Hr]%elem_of_group_rows.
    rewrite Forall_forall in Hlines. by apply Hlines. }
  rewrite length_fmap in Hle, Heq.
  assert (sum_Z (order_item_id <$> group_rows name_product (product row) df)
            ≤ sum_Z (order_item_id <$> df)) as Hpart.
  { apply sum_Z_filter_le. eapply Forall_impl; [exact Hlines|].
    intros r ?. simpl in *. lia. }
  unfold group_rows in Hle, Heq, Hpart.
  rewrite int64_small in Hq by (unfold int64_range; lia).
  rewrite Hq. split; [done|].
  unfold group_rows. rewrite Heq, Forall_fmap, Forall_forall. split.
  - intros Hall r Hr Hlabel. apply (Hall r). by apply list_elem_of_filter.
  - intros Hall r [? ?]%list_elem_of_filter. by apply Hall.
Qed.

(** Three lines of toys: three rows, quantity 1 + 2 + 3. *)
Lemma quantity_at_least_count_witness :
  ∃ n, ("toys"%string, n) ∈ count_order_item_id three_lines
       ∧ Z.of_nat n ≤ 6
       ∧ (Z.of_nat n = 6 ↔
            ∀ r, r ∈ three_lines → name_product r = "toys"%string →
                 order_item_id r = 1).
Proof.
  apply (quantity_at_least_count (stable_sort_values quantity) three_lines
           (stable_sort_values_spec quantity)
           ltac:(compute_done) ltac:(by vm_compute)
           {| product := "toys"; quantity := 6 |}).
  vm_compute. apply list_elem_of_here.
Defined.

(** ** Customers by state, sorted *)

Lemma create_bystate_df_states df :
  state <$> create_bystate_df df = group_keys customer_state df.
Proof.
  unfold create_bystate_df. rewrite <-list_fmap_compose. apply list_fmap_id.
Qed.

Lemma customer_count_nonzero df row :
  row ∈ create_bystate_df df → (1 ≤ customer_count row)%nat.
Proof.
  unfold create_bystate_df.
  intros (s & -> & (r & Hr & Hs)%elem_of_group_keys)%list_elem_of_fmap. simpl.
  destruct (nunique (customer_id <$> group_rows customer_state s df))
    eqn:Hcount; [|lia].
  apply nunique_nil_iff, fmap_nil_inv in Hcount.
  assert (r ∈ group_rows customer_state s df) as Hin
    by by apply elem_of_group_rows.
  rewrite Hcount in Hin. by apply elem_of_nil in Hin.
Qed.

Lemma Sorted_weaken {A} (R1 R2 : relation A) (l : list A) :
  (∀ a b, R1 a b → R2 a b) → Sorted R1 l → Sorted R2 l.
Proof.
  intros Himpl. induction 1 as [|x l _ IH Hx]; constructor; [done|].
  destruct Hx; constructor. by apply Himpl.
Qed.

(** X9.  The customers-by-state chart lists every state of the table once,
    largest count first, never with a count of 0; without any assumption
    on the data its counts add up to at least the number of distinct
    customers and at most the number of rows. *)
Theorem customer_state_counts_facts sort_values all_df :
  sort_values_spec (λ row, Z.of_nat (customer_count row)) sort_values →
  NoDup (state <$> customer_state_counts sort_values all_df)
  ∧ (∀ s, s ∈ state <$> customer_state_counts sort_values all_df ↔
            ∃ r, r ∈ all_df ∧ customer_state r = s)
  ∧ Forall (λ row, (1 ≤ customer_count row)%nat)
      (customer_state_counts sort_values all_df)
  ∧ Sorted (λ a b, (customer_count b ≤ customer_count a)%nat)
      (customer_state_counts sort_values all_df)
  ∧ (nunique (customer_id <$> all_df)
       ≤ sum_list (customer_count <$> customer_state_counts sort_values all_df))%nat
  ∧ (sum_list (customer_count <$> customer_state_counts sort_values all_df)
       ≤ length all_df)%nat.
Proof.
  intros Hs. unfold customer_state_counts.
  pose proof (sort_values_perm _ _ Hs false (create_bystate_df all_df)) as Hperm.
  assert (∀ r, r ∈ all_df →
               customer_state r ∈ group_keys customer_state all_df) as Hcover.
  { intros r Hr. apply elem_of_group_keys. by exists r. }
  split_and!.
  - rewrite Hperm, create_bystate_df_states. apply NoDup_group_keys.
  - intros s. rewrite Hperm, create_bystate_df_states.
    apply elem_of_group_keys.
  - apply Forall_forall. intros row Hrow. rewrite Hperm in Hrow.
    by apply customer_count_nonzero in Hrow.
  - pose proof (sort_values_descending _ _ Hs (create_bystate_df all_df)) as Hd.
    eapply Sorted_weaken; [|exact Hd]. intros a b ?. simpl in *. lia.
  - rewrite Hperm, customer_count_sum. by apply nunique_le_sum_groups.
  - rewrite Hperm, customer_count_sum.
    rewrite <-(sum_group_lengths customer_state
                 (group_keys customer_state all_df) all_df);
      [|apply NoDup_group_keys|done].
    apply sum_list_fmap_le. intros s _.
    rewrite <-(length_fmap customer_id). apply nunique_le_length.
Qed.

(** The chart of the scenario table under insertion sort. *)
Lemma customer_state_counts_facts_witness :
  NoDup (state <$> customer_state_counts
                     (stable_sort_values (λ row, Z.of_nat (customer_count row)))
                     scenario).
Proof.
  apply (customer_state_counts_facts
           (stable_sort_values (λ row, Z.of_nat (customer_count row)))
           scenario).
  apply stable_sort_values_spec.
Defined.

(** ** More on the RFM tables *)

Lemma create_rfm_df_customers df :
  rfm_customer_id <$> create_rfm_df df = group_keys customer_id df.
Proof.
  unfold create_rfm_df. rewrite <-list_fmap_compose. apply list_fmap_id.
Qed.

Lemma create_rfm_df_frequency df :
  frequency <$> create_rfm_df df
    = (λ c, nunique (order_id <$> group_rows customer_id c df))
        <$> group_keys customer_id df.
Proof. unfold create_rfm_df. by rewrite <-list_fmap_compose. Qed.

Lemma frequency_nonzero df row :
  row ∈ create_rfm_df df → (1 ≤ frequency row)%nat.
Proof.
  unfold create_rfm_df.
  intros (c & -> & (r & Hr & Hc)%elem_of_group_keys)%list_elem_of_fmap. simpl.
  destruct (nunique (order_id <$> group_rows customer_id c df))
    eqn:Hcount; [|lia].
  apply nunique_nil_iff, fmap_nil_inv in Hcount.
  assert (r ∈ group_rows customer_id c df) as Hin
    by by apply elem_of_group_rows.
  rewrite Hcount in Hin. by apply elem_of_nil in Hin.
Qed.

(** With a stamp on every row, every listed customer has a latest
    stamp. *)
Lemma latest_stamp_stamped c df :
  Forall (λ r, is_Some (order_approved_at r)) df →
  c ∈ group_keys customer_id df →
  is_Some (latest_stamp c df).
Proof.
  intros Hall (r & Hr & Hc)%elem_of_group_keys.
  rewrite Forall_forall in Hall. destruct (Hall r Hr) as [t Ht].
  unfold latest_stamp.
  destruct (max_skipna (order_approved_at <$> group_rows customer_id c df))
    eqn:Hmax; [by eexists|].
  apply max_skipna_None with (x := t) in Hmax. destruct Hmax.
  rewrite <-Ht. apply list_elem_of_fmap_2, elem_of_group_rows. done.
Qed.

(** X10.  On a table whose rows all have an approval stamp,
    [create_rfm_df] returns one row for every distinct customer of its
    table; every frequency is at least 1, the frequencies add up to at
    least the number of distinct orders and at most the number of rows,
    and every recency is a number of days, 0 or more. *)
Theorem create_rfm_df_invariants df :
  Forall (λ r, is_Some (order_approved_at r)) df →
  NoDup (rfm_customer_id <$> create_rfm_df df)
  ∧ (∀ c, c ∈ rfm_customer_id <$> create_rfm_df df ↔
            ∃ r, r ∈ df ∧ customer_id r = c)
  ∧ length (create_rfm_df df) = nunique (customer_id <$> df)
  ∧ Forall (λ row, (1 ≤ frequency row)%nat) (create_rfm_df df)
  ∧ (nunique (order_id <$> df) ≤ sum_list (frequency <$> create_rfm_df df))%nat
  ∧ (sum_list (frequency <$> create_rfm_df df) ≤ length df)%nat
  ∧ Forall (λ row, ∃ n, recency row = Some n ∧ 0 ≤ n) (create_rfm_df df).
Proof.
  intros Hstamped.
  assert (∀ r, r ∈ df → customer_id r ∈ group_keys customer_id df) as Hcover.
  { intros r Hr. apply elem_of_group_keys. by exists r. }
  split_and!.
  - rewrite create_rfm_df_customers. apply NoDup_group_keys.
  - intros c. rewrite create_rfm_df_customers. apply elem_of_group_keys.
  - rewrite <-(length_fmap rfm_customer_id), create_rfm_df_customers.
    apply length_group_keys.
  - apply Forall_forall. intros row. apply frequency_nonzero.
  - rewrite create_rfm_df_frequency. by apply nunique_le_sum_groups.
  - rewrite create_rfm_df_frequency.
    rewrite <-(sum_group_lengths customer_id (group_keys customer_id df) df);
      [|apply NoDup_group_keys|done].
    apply sum_list_fmap_le. intros c _.
    rewrite <-(length_fmap order_id). apply nunique_le_length.
  - apply Forall_forall. intros row [Hc Hrec]%elem_of_create_rfm_df.
    destruct (latest_stamp_stamped _ _ Hstamped Hc) as [x Hx].
    destruct (latest_stamp_bound _ _ _ Hx) as (today & Htoday & Hle).
    rewrite recent_date_of_stamp, Htoday, Hx in Hrec. simpl in Hrec.
    exists (date_of today - date_of x). split; [done|].
    pose proof (date_of_mono _ _ Hle). lia.
Qed.

(** Six stamped rows, two customers. *)
Lemma create_rfm_df_invariants_witness :
  Forall (λ r, is_Some (order_approved_at r)) multi_line_orders
  ∧ length (create_rfm_df multi_line_orders)
      = nunique (customer_id <$> multi_line_orders)
  ∧ length (create_rfm_df multi_line_orders) = 2%nat.
Proof.
  assert (Forall (λ r, is_Some (order_approved_at r)) multi_line_orders)
    as Hstamped by compute_done.
  split_and!; [done| |by vm_compute].
  by apply (create_rfm_df_invariants multi_line_orders).
Defined.




(** ** Best customers *)



(** X13.  The frequency chart shows at most five customers, and no
    customer left out has more orders than a customer shown. *)
Theorem top_frequency_shows_most sort_values all_df :
  sort_values_spec frequency_key sort_values →
  (∀ x y, x ∈ top_frequency sort_values all_df →
          y ∈ rfm_section all_df → y ∉ top_frequency sort_values all_df →
          (frequency y ≤ frequency x)%nat)
  ∧ length (top_frequency sort_values all_df)
      = (5 `min` nunique (customer_id <$> all_df))%nat
  ∧ NoDup (rfm_customer_id <$> top_frequency sort_values all_df).
Proof.
  intros Hs. unfold top_frequency. split_and!.
  - intros x y Hx Hy Hout.
    pose proof (head_descending frequency_key sort_values Hs 5
                  (rfm_section all_df) x y Hx Hy Hout) as Hle.
    unfold frequency_key in Hle. lia.
  - rewrite (head_length frequency_key) by done.
    unfold rfm_section. by rewrite length_fmap, length_group_keys.
  - rewrite fmap_take. apply NoDup_take.
    rewrite (sort_values_perm _ _ Hs false).
    replace (rfm_customer_id <$> rfm_section all_df)
      with (group_keys customer_id all_df); [apply NoDup_group_keys|].
    unfold rfm_section. rewrite <-list_fmap_compose.
    symmetry. apply list_fmap_id.
Qed.

(** The two customers of the first sample. *)
Lemma top_frequency_shows_most_witness :
  length (top_frequency (stable_sort_values frequency_key) two_customers)
    = (5 `min` nunique (customer_id <$> two_customers))%nat.
Proof.
  apply (top_frequency_shows_most (stable_sort_values frequency_key)
           two_customers).
  apply stable_sort_values_spec.
Defined.

(** ** Delivery status by seller city *)

Lemma status_group status rows c :
  group_rows seller_city c (filter (λ r, delivery_status r = Some status) rows)
    = filter (λ r, seller_city r = c ∧ delivery_status r = Some status) rows.
Proof. unfold group_rows. apply list_filter_filter. Qed.

Lemma elem_of_status_counts status rows c n :
  (c, n) ∈ status_counts status rows ↔
    (1 ≤ n)%nat
    ∧ n = length (filter (λ r, seller_city r = c
                               ∧ delivery_status r = Some status) rows).
Proof.
  unfold status_counts. rewrite list_elem_of_fmap.
  setoid_rewrite elem_of_group_keys. setoid_rewrite status_group. split.
  - intros (c' & [= -> ->] & r & Hr & Hc). split; [|done].
    assert (r ∈ filter (λ r, seller_city r = c'
                             ∧ delivery_status r = Some status) rows) as Hin.
    { apply list_elem_of_filter in Hr as [? ?].
      by apply list_elem_of_filter. }
    apply list_elem_of_lookup in Hin as [i Hi].
    apply lookup_lt_Some in Hi. lia.
  - intros [Hn ->]. exists c. split; [done|].
    destruct (filter (λ r, seller_city r = c
                           ∧ delivery_status r = Some status) rows)
      as [|r l] eqn:Hfilter; [simpl in Hn; lia|].
    assert (r ∈ filter (λ r, seller_city r = c
                             ∧ delivery_status r = Some status) rows) as Hin
      by (rewrite Hfilter; apply list_elem_of_here).
    apply list_elem_of_filter in Hin as [[? ?] ?].
    exists r. split; [|done]. by apply list_elem_of_filter.
Qed.

(** X14.  The late (or on-time) counts list a seller city exactly when it
    has a delivery of that status, with the number of such deliveries,
    so never with 0; every city is listed once, and the counts add up to
    the number of deliveries of that status. *)
Theorem status_counts_facts status rows :
  (∀ c n, (c, n) ∈ status_counts status rows ↔
            (1 ≤ n)%nat
            ∧ n = length (filter (λ r, seller_city r = c
                                       ∧ delivery_status r = Some status)
                            rows))
  ∧ NoDup (status_counts status rows).*1
  ∧ sum_list (status_counts status rows).*2
      = length (filter (λ r, delivery_status r = Some status) rows).
Proof.
  split_and!.
  - apply elem_of_status_counts.
  - unfold status_counts. rewrite <-list_fmap_compose.
    rewrite (list_fmap_id (group_keys seller_city _)) by done.
    apply NoDup_group_keys.
  - unfold status_counts. rewrite <-list_fmap_compose.
    apply (sum_group_lengths seller_city); [apply NoDup_group_keys|].
    intros r Hr. apply elem_of_group_keys. by exists r.
Qed.

(** X15.  The chart of most late deliveries shows at most ten cities and
    no city left out has more late deliveries than one shown; the chart of
    fewest shows cities that no city left out has fewer than; with ten
    cities or fewer both charts show the same cities.  The on-time charts
    behave the same way. *)
Theorem delivery_rankings sort_values rows :
  sort_values_spec count_key sort_values →
  (∀ x y, x ∈ top_10_late sort_values rows →
          y ∈ status_counts "Late" rows →
          y ∉ top_10_late sort_values rows → (y.2 ≤ x.2)%nat)
  ∧ (∀ x y, x ∈ bottom_10_late sort_values rows →
            y ∈ status_counts "Late" rows →
            y ∉ bottom_10_late sort_values rows → (x.2 ≤ y.2)%nat)
  ∧ ((length (status_counts "Late" rows) ≤ 10)%nat →
     top_10_late sort_values rows ≡ₚ bottom_10_late sort_values rows)
  ∧ (∀ x y, x ∈ top_10_ontime sort_values rows →
            y ∈ status_counts "On Time" rows →
            y ∉ top_10_ontime sort_values rows → (y.2 ≤ x.2)%nat)
  ∧ (∀ x y, x ∈ bottom_10_ontime sort_values rows →
            y ∈ status_counts "On Time" rows →
            y ∉ bottom_10_ontime sort_values rows → (x.2 ≤ y.2)%nat)
  ∧ ((length (status_counts "On Time" rows) ≤ 10)%nat →
     top_10_ontime sort_values rows ≡ₚ bottom_10_ontime sort_values rows).
Proof.
  intros Hs.
  unfold top_10_late, bottom_10_late, top_10_ontime, bottom_10_ontime.
  split_and!.
  - intros x y Hx Hy Hout.
    pose proof (head_descending count_key sort_values Hs 10 _ x y Hx Hy Hout)
      as Hle. unfold count_key in Hle. lia.
  - intros x y Hx Hy Hout.
    pose proof (head_ascending count_key sort_values Hs 10 _ x y Hx Hy Hout)
      as Hle. unfold count_key in Hle. lia.
  - intros Hfew. by rewrite !(head_whole count_key).
  - intros x y Hx Hy Hout.
    pose proof (head_descending count_key sort_values Hs 10 _ x y Hx Hy Hout)
      as Hle. unfold count_key in Hle. lia.
  - intros x y Hx Hy Hout.
    pose proof (head_ascending count_key sort_values Hs 10 _ x y Hx Hy Hout)
      as Hle. unfold count_key in Hle. lia.
  - intros Hfew. by rewrite !(head_whole count_key).
Qed.

(** Two cities with late deliveries: both charts show both. *)
Lemma delivery_rankings_witness :
  top_10_late (stable_sort_values count_key) deliveries
    ≡ₚ bottom_10_late (stable_sort_values count_key) deliveries.
Proof.
  apply (delivery_rankings (stable_sort_values count_key) deliveries).
  - apply stable_sort_values_spec.
  - vm_compute. lia.
Defined.

(** ** The guard on the review score column *)

(** X16.  The review section checks for the [review_score] column and has
    a warning for its absence, but an earlier section selects the column
    unguarded: without the column the script stops there with a
    [KeyError], so the warning is never shown.  The sections run to the
    end exactly when all four columns they read are present. *)
Theorem review_score_warning_never_shown columns w :
  (satisfaction_sections columns w).2 = w
  ∧ ((satisfaction_sections columns w).1 = Returned tt ↔
       "seller_city"%string ∈ columns ∧ "review_score"%string ∈ columns
       ∧ "time_deliver_tocarrier"%string ∈ columns
       ∧ "delivery_status"%string ∈ columns)
  ∧ ("seller_city"%string ∈ columns → "review_score"%string ∉ columns →
     (satisfaction_sections columns w).1 = Raised "KeyError: review_score").
Proof.
  unfold satisfaction_sections, status_ranking, groupby_getitem, getitem,
    mbind, script_bind, st_warning.
  destruct (decide ("seller_city"%string ∈ columns));
    destruct (decide ("review_score"%string ∈ columns));
    destruct (decide ("time_deliver_tocarrier"%string ∈ columns));
    destruct (decide ("delivery_status"%string ∈ columns));
    simpl; split_and!; try done; try tauto; split; (done || tauto).
Qed.

(** ** Plotting the customer points *)

Lemma length_factorize_from column : ∀ uniques,
  length (factorize_from uniques column) = length column.
Proof.
  induction column as [|[s|] rest IH]; intros uniques; simpl; [done| |].
  - destruct (index_of s uniques); simpl; by rewrite IH.
  - by rewrite IH.
Qed.

Lemma length_color_group geo_df : length (color_group geo_df) = length geo_df.
Proof.
  unfold color_group, factorize.
  by rewrite length_fmap, length_factorize_from, length_fmap.
Qed.

Lemma color_group_range geo_df g : g ∈ color_group geo_df → 0 ≤ g < 8.
Proof.
  unfold color_group. intros (code & -> & _)%list_elem_of_fmap.
  by apply Z.mod_pos_bound.
Qed.

Lemma color_mapping_indices : color_mapping.*1 = seqZ 0 8.
Proof. reflexivity. Qed.

(** The points of the layers are the colour groups in palette order, the
    empty ones being skipped. *)
Lemma plot_layers_points geo_df :
  concat (layer_points <$> plot_layers geo_df)
    = concat (subset_of_group geo_df <$> color_mapping.*1).
Proof.
  unfold plot_layers. induction color_mapping as [|[i color] rest IH];
    [done|].
  csimpl. destruct (subset_of_group geo_df i) as [|g points]; csimpl.
  - apply IH.
  - by rewrite IH.
Qed.

Lemma concat_fmap_fst {A B} (ls : list (list (A * B))) :
  concat ((λ l, l.*1) <$> ls) = (concat ls).*1.
Proof.
  induction ls as [|l ls IH]; csimpl; [done|]. by rewrite fmap_app, IH.
Qed.

(** X17.  Every point is drawn exactly once: its colour group is one of
    the eight palette indices (7 for a point without a state), and the
    layers drawn hold the points of the table, each once; there are at
    most eight layers. *)
Theorem plot_layers_partition geo_df :
  concat (layer_points <$> plot_layers geo_df) ≡ₚ geo_df
  ∧ Forall (λ g, 0 ≤ g < 8) (color_group geo_df)
  ∧ (∀ i g, geo_df !! i = Some g → geo_customer_state g = None →
            color_group geo_df !! i = Some 7)
  ∧ (length (plot_layers geo_df) ≤ 8)%nat.
Proof.
  split_and!.
  - rewrite plot_layers_points, color_mapping_indices.
    assert (subset_of_group geo_df <$> seqZ 0 8
              = (λ l, l.*1)
                  <$> ((λ i, group_rows snd i (zip geo_df (color_group geo_df)))
                         <$> seqZ 0 8)) as ->
      by by rewrite <-list_fmap_compose.
    rewrite concat_fmap_fst.
    rewrite (concat_groups_all snd (seqZ 0 8)).
    + rewrite fst_zip; [done|]. by rewrite length_color_group.
    + apply NoDup_seqZ.
    + intros [g i] Hin%elem_of_zip_r%color_group_range. simpl.
      apply elem_of_seqZ. lia.
  - apply Forall_forall. intros g. apply color_group_range.
  - intros i g Hi Hnone. unfold color_group, factorize.
    rewrite list_lookup_fmap, factorize_from_missing; [done|].
    by rewrite list_lookup_fmap, Hi, <-Hnone.
  - unfold plot_layers.
    trans (length color_mapping); [|done].
    generalize color_mapping. intros cm.
    induction cm as [|[i color] rest IH]; csimpl; [done|].
    destruct (subset_of_group geo_df i); csimpl; lia.
Qed.

Lemma index_of_lookup s us k :
  index_of s us = Some k → us !! k = Some s.
Proof.
  revert k. induction us as [|u us IH]; intros k; simpl; [done|].
  case_decide as Hu.
  - intros [= <-]. by rewrite Hu.
  - destruct (index_of s us) as [k'|]; [|done].
    intros [= <-]. simpl. by apply IH.
Qed.

(** The state and colour group of the points of a subset. *)
Lemma elem_of_subset_of_group geo_df i g :
  g ∈ subset_of_group geo_df i →
  ∃ j, geo_df !! j = Some g ∧ color_group geo_df !! j = Some i.
Proof.
  unfold subset_of_group.
  intros ([g' i'] & -> & [Hgroup Hin]%list_elem_of_filter)%list_elem_of_fmap.
  simpl in *. subst i'.
  apply list_elem_of_lookup in Hin as [j Hj].
  apply lookup_zip_Some in Hj as [? ?]. by exists j.
Qed.

(** X18.  With at most eight distinct states and no point without a
    state, every layer holds the points of one state and is labelled with
    that state, so the legend is right for every point. *)
Theorem legend_labels_own_state geo_df :
  (length (first_seen (geo_customer_state <$> geo_df)) ≤ 8)%nat →
  Forall (λ g, is_Some (geo_customer_state g)) geo_df →
  Forall (λ layer,
            Forall (λ g, geo_customer_state g = layer_label layer)
              (layer_points layer))
    (plot_layers geo_df).
Proof.
  intros Hfew Hpresent. rewrite Forall_forall in Hpresent.
  assert (∀ g i, g ∈ subset_of_group geo_df i →
            ∃ s, geo_customer_state g = Some s
                 ∧ first_seen (geo_customer_state <$> geo_df) !! Z.to_nat i
                     = Some s) as Hstate.
  { intros g i (j & Hj & Hgroup)%elem_of_subset_of_group.
    destruct (Hpresent g) as [s Hs]; [by apply list_elem_of_lookup_2 in Hj|].
    exists s. split; [done|].
    destruct (factorize_present (geo_customer_state <$> geo_df) j s)
      as (k & Hk & Hcode); [by rewrite list_lookup_fmap, Hj, <-Hs|].
    apply index_of_lookup in Hk.
    assert (k < 8)%nat by (apply lookup_lt_Some in Hk; lia).
    unfold color_group in Hgroup.
    rewrite list_lookup_fmap, Hcode in Hgroup. injection Hgroup as <-.
    change (Z.of_nat (length colors)) with 8.
    rewrite Z.mod_small by lia. by rewrite Nat2Z.id. }
  apply Forall_forall. intros layer. unfold plot_layers.
  intros ([i color] & _ & Hlayer)%list_elem_of_omap.
  destruct (subset_of_group geo_df i) as [|g0 points] eqn:Hsubset; [done|].
  injection Hlayer as <-. simpl.
  destruct (Hstate g0 i) as (s0 & Hs0 & Hi0);
    [rewrite Hsubset; apply list_elem_of_here|].
  apply Forall_forall. intros g Hg.
  destruct (Hstate g i) as (s & Hs & Hi); [by rewrite Hsubset|].
  congruence.
Qed.

(** Three states, every point with a state. *)
Lemma legend_labels_own_state_witness :
  Forall (λ layer,
            Forall (λ g, geo_customer_state g = layer_label layer)
              (layer_points layer))
    (plot_layers three_states).
Proof.
  apply (legend_labels_own_state three_states).
  - vm_compute. lia.
  - compute_done.
Defined.

(** With a ninth state the legend is wrong for some point: the first layer
    is labelled SP and also holds the point from ES. *)
Example legend_ninth_state :
  (λ layer, (layer_label layer, geo_customer_state <$> layer_points layer))
    <$> take 1 (plot_layers nine_states)
    = [(Some "SP", [Some "SP"; Some "ES"; Some "SP"])]%string.
Proof. by vm_compute. Qed.

(** ** Product sales distribution *)

(** X19.  The product sales chart counts rows: every product of the table
    has a count of at least 1, the counts of all products add up to the
    number of rows, the top list shows at most ten products none of which
    is outsold by a product left out, and the bottom list shows products
    that no product left out falls below. *)
Theorem product_sales_counts sort_values all_df :
  sort_values_spec count_key sort_values →
  (∀ p n, (p, n) ∈ count_order_item_id all_df ↔
            (∃ r, r ∈ all_df ∧ name_product r = p)
            ∧ n = length (filter (λ r, name_product r = p) all_df))
  ∧ Forall (λ entry, (1 ≤ entry.2)%nat) (count_order_item_id all_df)
  ∧ sum_list (count_order_item_id all_df).*2 = length all_df
  ∧ (∀ x y, x ∈ top_10_products sort_values all_df →
            y ∈ count_order_item_id all_df →
            y ∉ top_10_products sort_values all_df → (y.2 ≤ x.2)%nat)
  ∧ (∀ x y, x ∈ bottom_10_products sort_values all_df →
            y ∈ count_order_item_id all_df →
            y ∉ bottom_10_products sort_values all_df → (x.2 ≤ y.2)%nat)
  ∧ length (top_10_products sort_values all_df)
      = (10 `min` nunique (name_product <$> all_df))%nat.
Proof.
  intros Hs. unfold top_10_products, bottom_10_products. split_and!.
  - intros p n. rewrite elem_of_count_order_item_id, elem_of_group_keys. done.
  - apply Forall_forall. intros [p n].
    rewrite elem_of_count_order_item_id, elem_of_group_keys.
    intros [(r & Hr & Hp) ->]. simpl.
    assert (r ∈ group_rows name_product p all_df) as Hin
      by by apply elem_of_group_rows.
    apply list_elem_of_lookup in Hin as [i Hi].
    apply lookup_lt_Some in Hi. lia.
  - unfold count_order_item_id. rewrite <-list_fmap_compose.
    apply (sum_group_lengths name_product); [apply NoDup_group_keys|].
    intros r Hr. apply elem_of_group_keys. by exists r.
  - intros x y Hx Hy Hout.
    pose proof (head_descending count_key sort_values Hs 10 _ x y Hx Hy Hout)
      as Hle. unfold count_key in Hle. lia.
  - intros x y Hx Hy Hout.
    pose proof (head_ascending count_key sort_values Hs 10 _ x y Hx Hy Hout)
      as Hle. unfold count_key in Hle. lia.
  - rewrite (head_length count_key) by done. unfold count_order_item_id.
    by rewrite length_fmap, length_group_keys.
Qed.

(** The counts of the scenario table add up to its three rows. *)
Lemma product_sales_counts_witness :
  sum_list (count_order_item_id scenario).*2 = length scenario.
Proof.
  apply (product_sales_counts (stable_sort_values count_key) scenario).
  apply stable_sort_values_spec.
Defined.
